(** * Spectrum Analyzer 1.0: a shallow embedding of [special_matters.py]

    The session of [SpectrumAnalyzerApp] is modelled by explicit state
    passing: the attributes of [self], the heap of numpy buffers the
    attributes point into, the click events still to be delivered by the
    event loop and the message boxes shown so far.  The arithmetic of the
    samples is kept behind the interface [Num], which is instantiated with
    IEEE binary64 (what numpy computes with) and with exact rationals. *)

From Stdlib Require Import PrimFloat.
From Stdlib Require Import Bool String Ascii ZArith QArith Qcanon Qcabs.
From Stdlib Require Import List Arith Lia.
Import ListNotations.
Local Close Scope Qc_scope.
Local Close Scope Q_scope.
Local Open Scope nat_scope.
Local Open Scope list_scope.

Set Implicit Arguments.

(** ** Sample arithmetic *)

(** The operations the program applies to samples and click coordinates:
    [-], [+], [*], [/], the constants [0.0] and [2.0], [np.abs], the
    comparisons [<] and [>=], and the NaN test used by [np.argmin]. *)
Class Num (A : Type) : Type := {
  zero : A;
  two : A;
  add : A -> A -> A;
  sub : A -> A -> A;
  mul : A -> A -> A;
  div : A -> A -> A;
  absv : A -> A;
  ltb : A -> A -> bool;
  geb : A -> A -> bool;
  isnan : A -> bool
}.

(** [a > b] *)
Definition gtb {A} `{Num A} (a b : A) : bool := ltb b a.

(** An order without NaN, as exact arithmetic has one (binary64 has NaN and
    is handled value by value, see [ordered_on]). *)
Class NumOrder (A : Type) `{Num A} : Prop := {
  isnan_never : forall a : A, isnan a = false;
  geb_total : forall a b : A, geb a b = true \/ geb b a = true;
  geb_trans : forall a b c : A, geb a b = true -> geb b c = true -> geb a c = true
}.
Arguments NumOrder A {_}.

(** IEEE 754 binary64, the dtype of [np.loadtxt] and of click coordinates. *)
#[export] Instance float_Num : Num PrimFloat.float := {|
  zero := PrimFloat.zero;
  two := PrimFloat.two;
  add := PrimFloat.add;
  sub := PrimFloat.sub;
  mul := PrimFloat.mul;
  div := PrimFloat.div;
  absv := PrimFloat.abs;
  ltb := PrimFloat.ltb;
  geb := fun a b => PrimFloat.leb b a;
  isnan := PrimFloat.is_nan
|}.

(** Exact rational arithmetic. *)
#[export] Instance Qc_Num : Num Qc := {|
  zero := Q2Qc 0;
  two := Q2Qc 2;
  add := Qcplus;
  sub := Qcminus;
  mul := Qcmult;
  div := Qcdiv;
  absv := Qcabs;
  ltb := fun a b => negb (Qle_bool (this b) (this a));
  geb := fun a b => Qle_bool (this b) (this a);
  isnan := fun _ => false
|}.

(** ** The numpy functions the program calls *)

Section Numpy.
Context {A : Type} `{Num A}.

(** Elementwise binary operation on two 1-D arrays with numpy's
    broadcasting: equal lengths, or one operand of length 1; anything else
    is a shape mismatch ([None], numpy raises ValueError). *)
Definition broadcast2 (f : A -> A -> A) (a b : list A) : option (list A) :=
  if (length a =? length b)%nat then Some (map (fun p => f (fst p) (snd p)) (combine a b))
  else match a, b with
       | a0 :: nil, _ => Some (map (f a0) b)
       | _, b0 :: nil => Some (map (fun v => f v b0) a)
       | _, _ => None
       end.

(** [arr - s], [s * arr], [arr + s], [arr / s] with a scalar [s]. *)
Definition sub_scalar (a : list A) (s : A) : list A := map (fun v => sub v s) a.
Definition scalar_mul (s : A) (a : list A) : list A := map (fun v => mul s v) a.
Definition add_scalar (a : list A) (s : A) : list A := map (fun v => add v s) a.
Definition div_scalar (a : list A) (s : A) : list A := map (fun v => div v s) a.

Definition np_abs (a : list A) : list A := map absv a.

(** The scan of [np.argmin] over floats: the running minimum [mp] is
    replaced when [not (v >= mp)], and a NaN ends the scan at its index. *)
Fixpoint argmin_loop (mp : A) (min_ind i : nat) (l : list A) : nat :=
  match l with
  | [] => min_ind
  | v :: rest =>
      if negb (geb v mp)
      then (if isnan v then i else argmin_loop v i (S i) rest)
      else argmin_loop mp min_ind (S i) rest
  end.

(** [np.argmin a]; [None] is the ValueError on an empty sequence. *)
Definition np_argmin (a : list A) : option nat :=
  match a with
  | [] => None
  | v :: rest => Some (if isnan v then 0 else argmin_loop v 0 1 rest)
  end.

(** [a[start:end]] for [0 <= start], [0 <= end]. *)
Definition slice (a : list A) (start stop : nat) : list A :=
  firstn (stop - start) (skipn start a).

(** [np.diff x = x[1:] - x[:-1]]. *)
Definition np_diff (x : list A) : list A :=
  map (fun p => sub (fst p) (snd p)) (combine (tl x) (removelast x)).

(** [r[j] += a[i + j]] for [j = 0..7]. *)
Definition add_lanes (r block : list A) : list A :=
  map (fun p => add (fst p) (snd p)) (combine r block).

(** The unrolled loop of numpy's pairwise summation: as long as eight more
    elements are left, they are added to the eight accumulators [r]. *)
Fixpoint add_blocks (fuel : nat) (r rest : list A) : list A * list A :=
  match fuel with
  | O => (r, rest)
  | S f =>
      if 8 <=? length rest
      then add_blocks f (add_lanes r (firstn 8 rest)) (skipn 8 rest)
      else (r, rest)
  end.

(** [((r[0] + r[1]) + (r[2] + r[3])) + ((r[4] + r[5]) + (r[6] + r[7]))]. *)
Definition sum8 (r : list A) : A :=
  match r with
  | r0 :: r1 :: r2 :: r3 :: r4 :: r5 :: r6 :: r7 :: nil =>
      add (add (add r0 r1) (add r2 r3)) (add (add r4 r5) (add r6 r7))
  | _ => zero
  end.

(** numpy's pairwise summation of a contiguous float array: fewer than 8
    elements are added from left to right; up to 128 elements go through
    eight accumulators, which are combined as a tree before the remaining
    elements are added; a longer array is split at a multiple of 8 near its
    middle.  [fuel] bounds the depth of the splitting. *)
Fixpoint pairwise_sum (fuel : nat) (a : list A) : A :=
  let n := length a in
  if n <? 8 then fold_left add a zero
  else if n <=? 128 then
    let (r, rest) := add_blocks n (firstn 8 a) (skipn 8 a) in
    fold_left add rest (sum8 r)
  else
    match fuel with
    | O => zero
    | S f =>
        let n2 := n / 2 - (n / 2) mod 8 in
        add (pairwise_sum f (firstn n2 a)) (pairwise_sum f (skipn n2 a))
    end.

(** [arr.sum()] of a 1-D float array: the add-reduction starts from the
    identity [0.0], to which the pairwise sum of the elements is added; an
    empty array gives the identity. *)
Definition np_sum (a : list A) : A :=
  match a with
  | [] => zero
  | _ => add zero (pairwise_sum (length a) a)
  end.

(** [np.trapz y x]:
    [d = diff(x); ret = (d * (y[1:] + y[:-1]) / 2.0).sum()]. *)
Definition np_trapz (y x : list A) : option A :=
  let d := np_diff x in
  match broadcast2 add (tl y) (removelast y) with
  | None => None
  | Some s =>
      match broadcast2 mul d s with
      | None => None
      | Some p => Some (np_sum (div_scalar p two))
      end
  end.

(** Python's [sorted]: a stable sort that only uses [<]. *)
Fixpoint insert_sorted (v : A) (l : list A) : list A :=
  match l with
  | [] => [v]
  | h :: t => if ltb v h then v :: l else h :: insert_sorted v t
  end.

Definition sorted (l : list A) : list A :=
  fold_left (fun acc v => insert_sorted v acc) l [].

End Numpy.

(** ** The session state *)

(** Exceptions the modelled code can raise. *)
Inductive exn : Type := IOError | ValueError | IndexError | TypeError | StopIteration.

(** A view [data[:, col]] into the 2-D buffer stored at [base]. *)
Record view : Type := { base : nat; col : nat }.

(** [os.path.basename] for POSIX paths: what follows the last ["/"]. *)
Fixpoint has_slash (s : string) : bool :=
  match s with
  | EmptyString => false
  | String c r => if Ascii.eqb c "/" then true else has_slash r
  end.

Fixpoint basename (s : string) : string :=
  match s with
  | EmptyString => EmptyString
  | String c r =>
      if has_slash r then basename r
      else if Ascii.eqb c "/" then r else s
  end.

Section Session.
Context {A : Type} `{Num A}.

(** What [np.loadtxt] can return: a 0-d, 1-d or 2-d array. *)
Inductive ndarray : Type :=
| Arr0 (v : A)
| Arr1 (l : list A)
| Arr2 (rows : list (list A)).

(** The message boxes of the program. *)
Inductive dialog : Type :=
| showerror (title message : string)
| showinfo (title message : string)
| showinfo_instructions (num_points : nat)
| showinfo_intensity (area : A).

(** A matplotlib button press; [xdata]/[ydata] are [None] outside the axes. *)
Record MouseEvent : Type := { xdata : option A; ydata : option A }.

(** A line ["Intensity(lo-hi eV): area"] of the results widget. *)
Record log_line : Type := { log_lower : A; log_upper : A; log_area : A }.

(** A text file: [None] for a token that [float()] rejects. *)
Definition file_text : Type := list (list (option A)).

Record world : Type := {
  (* attributes of [self] *)
  data : option (view * view);
  binding_energies : option view;
  sum_intensities : option view;
  points_collected : option bool;
  selected_file : string;
  file_paths : list string;
  results_text : list log_line;
  (* what [canvas.draw()] last rendered *)
  drawn : option (list A * list A);
  (* the environment *)
  heap : list ndarray;
  files : string -> option file_text;
  events : list MouseEvent;
  dialogs : list dialog
}.

Definition set_data v w := {|
  data := v; binding_energies := binding_energies w;
  sum_intensities := sum_intensities w; points_collected := points_collected w;
  selected_file := selected_file w; file_paths := file_paths w;
  results_text := results_text w; drawn := drawn w; heap := heap w;
  files := files w; events := events w; dialogs := dialogs w |}.

Definition set_binding_energies v w := {|
  data := data w; binding_energies := v;
  sum_intensities := sum_intensities w; points_collected := points_collected w;
  selected_file := selected_file w; file_paths := file_paths w;
  results_text := results_text w; drawn := drawn w; heap := heap w;
  files := files w; events := events w; dialogs := dialogs w |}.

Definition set_sum_intensities v w := {|
  data := data w; binding_energies := binding_energies w;
  sum_intensities := v; points_collected := points_collected w;
  selected_file := selected_file w; file_paths := file_paths w;
  results_text := results_text w; drawn := drawn w; heap := heap w;
  files := files w; events := events w; dialogs := dialogs w |}.

Definition set_points_collected v w := {|
  data := data w; binding_energies := binding_energies w;
  sum_intensities := sum_intensities w; points_collected := v;
  selected_file := selected_file w; file_paths := file_paths w;
  results_text := results_text w; drawn := drawn w; heap := heap w;
  files := files w; events := events w; dialogs := dialogs w |}.

Definition set_results_text v w := {|
  data := data w; binding_energies := binding_energies w;
  sum_intensities := sum_intensities w; points_collected := points_collected w;
  selected_file := selected_file w; file_paths := file_paths w;
  results_text := v; drawn := drawn w; heap := heap w;
  files := files w; events := events w; dialogs := dialogs w |}.

Definition set_drawn v w := {|
  data := data w; binding_energies := binding_energies w;
  sum_intensities := sum_intensities w; points_collected := points_collected w;
  selected_file := selected_file w; file_paths := file_paths w;
  results_text := results_text w; drawn := v; heap := heap w;
  files := files w; events := events w; dialogs := dialogs w |}.

Definition set_heap v w := {|
  data := data w; binding_energies := binding_energies w;
  sum_intensities := sum_intensities w; points_collected := points_collected w;
  selected_file := selected_file w; file_paths := file_paths w;
  results_text := results_text w; drawn := drawn w; heap := v;
  files := files w; events := events w; dialogs := dialogs w |}.

Definition set_events v w := {|
  data := data w; binding_energies := binding_energies w;
  sum_intensities := sum_intensities w; points_collected := points_collected w;
  selected_file := selected_file w; file_paths := file_paths w;
  results_text := results_text w; drawn := drawn w; heap := heap w;
  files := files w; events := v; dialogs := dialogs w |}.

Definition set_dialogs v w := {|
  data := data w; binding_energies := binding_energies w;
  sum_intensities := sum_intensities w; points_collected := points_collected w;
  selected_file := selected_file w; file_paths := file_paths w;
  results_text := results_text w; drawn := drawn w; heap := heap w;
  files := files w; events := events w; dialogs := v |}.

(** ** A state and exception monad *)

(** A call returns a value, raises, or never returns ([Blocked]: the
    event loop ran out of clicks while [wait_variable] was waiting). *)
Inductive outcome (T : Type) : Type :=
| Ret (v : T)
| Raise (e : exn)
| Blocked.

Definition M (T : Type) : Type := world -> outcome T * world.

Definition ret {T} (v : T) : M T := fun w => (Ret v, w).

Definition bind {T U} (c : M T) (k : T -> M U) : M U := fun w =>
  match c w with
  | (Ret v, w') => k v w'
  | (Raise _ e, w') => (Raise U e, w')
  | (Blocked _, w') => (Blocked U, w')
  end.

Definition raise {T} (e : exn) : M T := fun w => (Raise T e, w).
Definition block {T} : M T := fun w => (Blocked T, w).
Definition gets {T} (f : world -> T) : M T := fun w => (Ret (f w), w).
Definition modify (f : world -> world) : M unit := fun w => (Ret tt, f w).

(** [try: body / except e: handler e] for the exceptions [handler] names. *)
Definition try_except {T} (body : M T) (handler : exn -> option (M T)) : M T := fun w =>
  match body w with
  | (Raise _ e, w') =>
      match handler e with
      | Some h => h w'
      | None => (Raise T e, w')
      end
  | r => r
  end.

(** Unwrap an option, raising [e] on [None]. *)
Definition orelse {T} (o : option T) (e : exn) : M T :=
  match o with
  | Some v => ret v
  | None => raise e
  end.

Definition messagebox (d : dialog) : M unit :=
  modify (fun w => set_dialogs (dialogs w ++ [d]) w).

End Session.

Arguments ndarray A : clear implicits.
Arguments dialog A : clear implicits.
Arguments MouseEvent A : clear implicits.
Arguments log_line A : clear implicits.
Arguments file_text A : clear implicits.
Arguments world A : clear implicits.
Arguments M A T : clear implicits.
Arguments Raise {T} e.
Arguments Blocked {T}.

Declare Scope session_scope.
Delimit Scope session_scope with session.
Notation "x <- c1 ;; c2" := (bind c1 (fun x => c2))
  (at level 100, c1 at next level, right associativity) : session_scope.
Notation "c1 ;; c2" := (bind c1 (fun _ => c2))
  (at level 100, right associativity) : session_scope.

(** ** Arrays on the heap *)

Section Arrays.
Context {A : Type} `{Num A}.
Local Open Scope session_scope.

(** Column [c] of a 2-D buffer. *)
Definition column (c : nat) (rows : list (list A)) : list A :=
  map (fun r => nth c r zero) rows.

(** [row[c] = v]. *)
Fixpoint set_nth (c : nat) (v : A) (row : list A) : list A :=
  match row, c with
  | [], _ => []
  | _ :: t, O => v :: t
  | h :: t, S c' => h :: set_nth c' v t
  end.

(** Store [vals] into column [c], row by row. *)
Fixpoint set_column (c : nat) (vals : list A) (rows : list (list A)) : list (list A) :=
  match rows, vals with
  | r :: rows', v :: vals' => set_nth c v r :: set_column c vals' rows'
  | _, _ => rows
  end.

Fixpoint update_nth {T} (n : nat) (f : T -> T) (l : list T) : list T :=
  match l, n with
  | [], _ => []
  | h :: t, O => f h :: t
  | h :: t, S n' => h :: update_nth n' f t
  end.

(** The elements a view shows. *)
Definition view_read (h : list (ndarray A)) (v : view) : list A :=
  match nth_error h (base v) with
  | Some (Arr2 rows) => column (col v) rows
  | _ => []
  end.

(** Writing through a view changes the buffer it points into. *)
Definition view_write (h : list (ndarray A)) (v : view) (vals : list A) : list (ndarray A) :=
  update_nth (base v)
    (fun a => match a with
              | Arr2 rows => Arr2 (set_column (col v) vals rows)
              | other => other
              end) h.

(** [float(tok)] for every token of a line. *)
Fixpoint parse_row (r : list (option A)) : option (list A) :=
  match r with
  | [] => Some []
  | None :: _ => None
  | Some v :: r' =>
      match parse_row r' with
      | Some l => Some (v :: l)
      | None => None
      end
  end.

Fixpoint parse_rows (t : file_text A) : option (list (list A)) :=
  match t with
  | [] => Some []
  | r :: t' =>
      match parse_row r, parse_rows t' with
      | Some l, Some ls => Some (l :: ls)
      | _, _ => None
      end
  end.

Definition is_blank (r : list (option A)) : bool :=
  match r with [] => true | _ => false end.

(** Every line has as many columns as the first. *)
Definition same_width (rows : list (list A)) : bool :=
  match rows with
  | [] => true
  | r :: rows' => forallb (fun r' => length r' =? length r) rows'
  end.

(** [np.squeeze] as [loadtxt] applies it ([ndmin=0]): axes of length one
    are dropped, and an empty input gives an empty 1-d array. *)
Definition squeeze (rows : list (list A)) : ndarray A :=
  match rows with
  | [] => Arr1 []
  | r :: nil =>
      match r with
      | v :: nil => Arr0 v
      | _ => Arr1 r
      end
  | r :: _ =>
      match r with
      | _ :: nil => Arr1 (column 0 rows)
      | _ => Arr2 rows
      end
  end.

(** [np.loadtxt(path)]: IOError when the file cannot be opened, ValueError
    on a token that is not a number or on lines of different widths; blank
    lines are skipped.  The array is allocated on the heap. *)
Definition np_loadtxt (path : string) : M A nat :=
  text <- gets (fun w => files w path) ;;
  text <- orelse text IOError ;;
  rows <- orelse (parse_rows (filter (fun r => negb (is_blank r)) text)) ValueError ;;
  if same_width rows
  then (r <- gets (fun w => length (heap w)) ;;
        modify (fun w => set_heap (heap w ++ [squeeze rows]) w) ;;
        ret r)
  else raise ValueError.

(** [data[:, c]]: IndexError unless the array is 2-d with more than [c]
    columns. *)
Definition index_col (r : nat) (c : nat) : M A view :=
  a <- gets (fun w => nth_error (heap w) r) ;;
  match a with
  | Some (Arr2 rows) =>
      if c <? length (hd [] rows) then ret {| base := r; col := c |}
      else raise IndexError
  | _ => raise IndexError
  end.

(** [v -= fit] on a 1-d view: [fit] must have the view's length or length
    one; the difference is stored in place. *)
Definition isub (v : view) (fit : list A) : M A unit :=
  y <- gets (fun w => view_read (heap w) v) ;;
  if length fit =? length y
  then modify (fun w => set_heap
         (view_write (heap w) v (map (fun p => sub (fst p) (snd p)) (combine y fit))) w)
  else match fit with
       | f0 :: nil =>
           modify (fun w => set_heap (view_write (heap w) v (sub_scalar y f0)) w)
       | _ => raise ValueError
       end.

End Arrays.

(** ** The methods of [SpectrumAnalyzerApp] *)

Section App.
Context {A : Type} `{Num A}.
Local Open Scope session_scope.

(** The array an attribute holds; using [None] as an array is a TypeError. *)
Definition read_attr (attr : world A -> option view) : M A (list A) :=
  v <- gets attr ;;
  v <- orelse v TypeError ;;
  gets (fun w => view_read (heap w) v).

(** [load_selected_file]. *)
Definition load_selected_file : M A unit :=
  selected <- gets (@selected_file A) ;;
  if (selected =? "")%string || (selected =? "Select a file")%string then ret tt
  else
    paths <- gets (@file_paths A) ;;
    file_path <- orelse (find (fun f => (basename f =? selected)%string) paths) StopIteration ;;
    try_except
      (d <- np_loadtxt file_path ;;
       bx <- index_col d 0 ;;
       modify (set_binding_energies (Some bx)) ;;
       sy <- index_col d 1 ;;
       modify (set_sum_intensities (Some sy)) ;;
       modify (set_data (Some (bx, sy))) ;;
       messagebox (showinfo "Success" ("Loaded " ++ selected ++ " successfully!")%string))
      (fun e =>
         match e with
         | IOError => Some (messagebox
             (showerror "Error" ("Failed to load " ++ selected ++ ": File not found.")%string))
         | ValueError => Some (messagebox
             (showerror "Error" ("Failed to load " ++ selected ++ ": Invalid data format.")%string))
         | _ => None
         end).

(** [plot_data]: the curve is redrawn from the current arrays. *)
Definition plot_data : M A unit :=
  d <- gets (@data A) ;;
  match d with
  | None => messagebox (showerror "Error" "No data loaded. Please load data first.")
  | Some _ =>
      x <- read_attr (@binding_energies A) ;;
      y <- read_attr (@sum_intensities A) ;;
      if (length x =? length y)%nat then modify (set_drawn (Some (x, y)))
      else raise ValueError
  end.

(** The handler [onclick] of [get_user_points]: the new [points], and
    whether it disconnected itself and set [points_collected]. *)
Definition onclick (num_points : nat) (points : list (A * A)) (event : MouseEvent A)
  : list (A * A) * bool :=
  match xdata event, ydata event with
  | Some x, Some y =>
      let points' := points ++ [(x, y)] in
      (points', (length points' =? num_points)%nat)
  | _, _ => (points, false)
  end.

(** [root.wait_variable(points_collected)]: the event loop delivers the
    pending clicks to the handler until the variable is set; [None] when
    the clicks run out first. *)
Fixpoint wait_variable (num_points : nat) (points : list (A * A))
    (evs : list (MouseEvent A)) : option (list (A * A) * list (MouseEvent A)) :=
  match evs with
  | [] => None
  | e :: rest =>
      let (points', collected) := onclick num_points points e in
      if collected then Some (points', rest)
      else wait_variable num_points points' rest
  end.

(** [get_user_points]. *)
Definition get_user_points (num_points : nat) : M A (list (A * A)) :=
  modify (set_points_collected (Some false)) ;;
  messagebox (showinfo_instructions num_points) ;;
  evs <- gets (@events A) ;;
  match wait_variable num_points [] evs with
  | Some (points, rest) =>
      modify (fun w => set_points_collected (Some true) (set_events rest w)) ;;
      ret points
  | None => modify (set_events []) ;; block
  end.

(** [remove_background]. *)
Definition remove_background : M A unit :=
  d <- gets (@data A) ;;
  match d with
  | None => messagebox (showerror "Error" "No data loaded. Please load data first.")
  | Some _ =>
      points <- get_user_points 2 ;;
      match points with
      | (px, py) :: (qx, qy) :: nil =>
          let '(x1, y1, x2, y2) :=
            if gtb px qx then (qx, qy, px, py) else (px, py, qx, qy) in
          let slope := div (sub y2 y1) (sub x2 x1) in
          let intercept := sub y1 (mul slope x1) in
          x <- read_attr (@binding_energies A) ;;
          let linear_fit := add_scalar (scalar_mul slope x) intercept in
          sy <- gets (@sum_intensities A) ;;
          sy <- orelse sy TypeError ;;
          isub sy linear_fit ;;
          plot_data
      | _ => ret tt
      end
  end.

(** [calculate_intensities]. *)
Definition calculate_intensities : M A unit :=
  d <- gets (@data A) ;;
  match d with
  | None => messagebox (showerror "Error" "No data loaded. Please load data first.")
  | Some _ =>
      points <- get_user_points 2 ;;
      if (length points <? 2)%nat then ret tt
      else
        let x_values := sorted (map fst points) in
        x_lower <- orelse (nth_error x_values 0) IndexError ;;
        x_upper <- orelse (nth_error x_values 1) IndexError ;;
        x <- read_attr (@binding_energies A) ;;
        start_idx <- orelse (np_argmin (np_abs (sub_scalar x x_lower))) ValueError ;;
        x <- read_attr (@binding_energies A) ;;
        end_idx <- orelse (np_argmin (np_abs (sub_scalar x x_upper))) ValueError ;;
        if (end_idx <=? start_idx)%nat
        then messagebox (showerror "Error" "Invalid range selected.")
        else
          y <- read_attr (@sum_intensities A) ;;
          x <- read_attr (@binding_energies A) ;;
          area <- orelse (np_trapz (slice y start_idx end_idx)
                                   (slice x start_idx end_idx)) ValueError ;;
          messagebox (showinfo_intensity area) ;;
          modify (fun w => set_results_text
            (results_text w ++
             [{| log_lower := x_lower; log_upper := x_upper; log_area := area |}]) w)
  end.

(** The current dataset [(x, y)], when one is loaded. *)
Definition dataset (w : world A) : option (list A * list A) :=
  match data w, binding_energies w, sum_intensities w with
  | Some _, Some bx, Some sy => Some (view_read (heap w) bx, view_read (heap w) sy)
  | _, _, _ => None
  end.

End App.

(** * The vocabulary of the properties *)

Section Vocabulary.
Context {A : Type} `{Num A}.

(** The points of the clicks that carry data coordinates, in click order. *)
Fixpoint valid_clicks (evs : list (MouseEvent A)) : list (A * A) :=
  match evs with
  | [] => []
  | e :: rest =>
      match xdata e, ydata e with
      | Some x, Some y => (x, y) :: valid_clicks rest
      | _, _ => valid_clicks rest
      end
  end.

(** The world [get_user_points] leaves behind when it returns. *)
Definition after_clicks (num_points : nat) (rest : list (MouseEvent A)) (w : world A) : world A :=
  set_points_collected (Some true)
    (set_events rest
       (set_dialogs (dialogs w ++ [showinfo_instructions num_points])
          (set_points_collected (Some false) w))).

(** The term of [np.trapz] for the samples [i] and [i + 1]. *)
Definition trapz_term (x y : list A) (i : nat) : A :=
  div (mul (sub (nth (S i) x zero) (nth i x zero))
           (add (nth (S i) y zero) (nth i y zero))) two.

(** The terms [(x[i+1] - x[i]) * (y[i] + y[i+1]) / 2] of the consecutive
    samples [(i, i+1)] inside the window [start_idx <= i],
    [i + 1 < end_idx], in the order of the samples. *)
Definition trapezoid_terms (x y : list A) (start_idx end_idx : nat) : list A :=
  map (fun i =>
      div (mul (sub (nth (S i) x zero) (nth i x zero))
               (add (nth i y zero) (nth (S i) y zero))) two)
    (seq start_idx (end_idx - 1 - start_idx)).


(** [i] is the lowest index whose element no other element of [l] is below. *)
Definition first_min (l : list A) (i : nat) : Prop :=
  i < length l /\
  Forall (fun u => geb u (nth i l zero) = true) l /\
  Forall (fun u => geb (nth i l zero) u = false) (firstn i l).


(** The values of [l] can be ranked: none is NaN, and [>=] is total and
    transitive among them. *)
Definition ordered_on (l : list A) : Prop :=
  (forall a, In a l -> isnan a = false) /\
  (forall a b, In a l -> In b l -> geb a b = true \/ geb b a = true) /\
  (forall a b c, In a l -> In b l -> In c l ->
     geb a b = true -> geb b c = true -> geb a c = true).



(** Exactly one of [a < b] and [b < a] holds: [a] and [b] are two different
    numbers (neither is NaN, and they are not [0.0] and [-0.0]). *)
Definition one_below (a b : A) : Prop := ltb a b = negb (ltb b a).

(** What an operation leaves alone when it only talks to the user: the
    arrays, the attributes that point to them and the drawn curve. *)
Definition same_arrays (w w' : world A) : Prop :=
  heap w' = heap w /\ data w' = data w /\
  binding_energies w' = binding_energies w /\
  sum_intensities w' = sum_intensities w /\
  drawn w' = drawn w /\ file_paths w' = file_paths w /\
  selected_file w' = selected_file w.

(** The log is untouched or one line longer. *)
Definition log_grows (w w' : world A) : Prop :=
  results_text w' = results_text w \/
  exists line, results_text w' = results_text w ++ [line].

(** The only heap effect a call may have: one write through the view
    [sum_intensities]. *)
Definition wrote_y (w w' : world A) : Prop :=
  heap w' = heap w \/
  exists sy vals, sum_intensities w = Some sy /\ heap w' = view_write (heap w) sy vals.

(** The state a successful load leaves: both attributes are views of the
    first two columns of one 2-d buffer. *)
Definition loaded_at (w : world A) (r : nat) (rows : list (list A)) : Prop :=
  nth_error (heap w) r = Some (Arr2 rows) /\
  binding_energies w = Some {| base := r; col := 0 |} /\
  sum_intensities w = Some {| base := r; col := 1 |} /\
  data w = Some ({| base := r; col := 0 |}, {| base := r; col := 1 |}) /\
  Forall (fun row => 2 <= length row) rows.

(** The two points, the one with the smaller x first. *)
Definition ordered_points (p1 p2 : A * A) : (A * A) * (A * A) :=
  if gtb (fst p1) (fst p2) then (p2, p1) else (p1, p2).

(** [slope = (y2 - y1) / (x2 - x1)] of the ordered points. *)
Definition slope_of (p1 p2 : A * A) : A :=
  let (a, b) := ordered_points p1 p2 in
  div (sub (snd b) (snd a)) (sub (fst b) (fst a)).

(** [intercept = y1 - slope * x1] of the ordered points. *)
Definition intercept_of (p1 p2 : A * A) : A :=
  let (a, b) := ordered_points p1 p2 in
  sub (snd a) (mul (slope_of p1 p2) (fst a)).

(** [y[i] - (slope * x[i] + intercept)] for every sample. *)
Definition subtract_line (slope intercept : A) (x y : list A) : list A :=
  map (fun p => sub (snd p) (add (mul slope (fst p)) intercept)) (combine x y).

(** The world after the line was subtracted and the curve redrawn. *)
Definition background_removed (p1 p2 : A * A) (r : nat) (rows : list (list A))
    (w : world A) : world A :=
  let x := column 0 rows in
  let y' := subtract_line (slope_of p1 p2) (intercept_of p1 p2) x (column 1 rows) in
  set_drawn (Some (x, y'))
    (set_heap (view_write (heap w) {| base := r; col := 1 |} y') w).

(** A load that went through: the dataset is replaced by the first two
    columns of a fresh buffer and "Success" is shown. *)
Definition load_replaced (w w' : world A) (rows : list (list A)) : Prop :=
  loaded_at w' (length (heap w)) rows /\
  2 <= length rows /\
  heap w' = heap w ++ [Arr2 rows] /\
  dialogs w' = dialogs w ++
    [showinfo "Success" ("Loaded " ++ selected_file w ++ " successfully!")%string].

(** A load that did not go through: the attributes are as before, the heap
    has at most gained garbage, and at most an error box was shown. *)
Definition load_refused (w w' : world A) : Prop :=
  data w' = data w /\
  binding_energies w' = binding_energies w /\
  sum_intensities w' = sum_intensities w /\
  (exists extra, heap w' = heap w ++ extra) /\
  (dialogs w' = dialogs w \/ exists msg, dialogs w' = dialogs w ++ [showerror "Error" msg]).

(** The invariant of a loaded dataset: as many x as y, and at least one. *)
Definition dataset_ok (w : world A) : Prop :=
  exists x y, dataset w = Some (x, y) /\ length x = length y /\ x <> [].

End Vocabulary.

(** ** Concrete sessions *)

(** An integer sample. *)
Definition qz (z : Z) : Qc := Q2Qc (inject_Z z).

(** The spectrum [x = 0,1,2,3,4], [y = 0,1,4,1,0]. *)
Definition spectrum_rows : list (list Qc) :=
  [[qz 0; qz 0]; [qz 1; qz 1]; [qz 2; qz 4]; [qz 3; qz 1]; [qz 4; qz 0]].

(** A flat signal [y = 2] over [x = 0,1,3,6]. *)
Definition flat_rows : list (list Qc) :=
  [[qz 0; qz 2]; [qz 1; qz 2]; [qz 3; qz 2]; [qz 6; qz 2]].

(** The text of a file that holds the numbers [rows]. *)
Definition text_of {A} (rows : list (list A)) : file_text A := map (map Some) rows.

(** The files of the folder: two spectra, a file with one column, a file
    with one line, and a file with a word in it. *)
Definition demo_files (path : string) : option (file_text Qc) :=
  if (path =? "/data/spectrum.txt")%string then Some (text_of spectrum_rows)
  else if (path =? "/data/flat.txt")%string then Some (text_of flat_rows)
  else if (path =? "/data/column.txt")%string then Some (text_of [[qz 1]; [qz 2]])
  else if (path =? "/data/row.txt")%string then Some (text_of [[qz 1; qz 2]])
  else if (path =? "/data/notes.txt")%string then Some [[Some (qz 1); None]; [Some (qz 2); Some (qz 3)]]
  else None.

Definition demo_paths : list string :=
  ["/data/spectrum.txt"; "/data/flat.txt"; "/data/column.txt";
   "/data/row.txt"; "/data/notes.txt"]%string.

(** The session after [__init__] and [load_data], with [selected] chosen in
    the file selector and [evs] the clicks to come. *)
Definition fresh_session {A} (fs : string -> option (file_text A)) (selected : string)
    (evs : list (MouseEvent A)) : world A := {|
  data := None; binding_energies := None; sum_intensities := None;
  points_collected := None; selected_file := selected; file_paths := demo_paths;
  results_text := []; drawn := None; heap := []; files := fs;
  events := evs; dialogs := [] |}.

(** The session once [selected] was loaded. *)
Definition loaded_session (selected : string) (evs : list (MouseEvent Qc)) : world Qc :=
  snd (load_selected_file (fresh_session demo_files selected evs)).

Definition click (x y : Z) : MouseEvent Qc :=
  {| xdata := Some (qz x); ydata := Some (qz y) |}.

(** A click outside the axes. *)
Definition outside : MouseEvent Qc := {| xdata := None; ydata := None |}.

(** The same session with another file chosen in the selector. *)
Definition select {A} (selected : string) (w : world A) : world A := {|
  data := data w; binding_energies := binding_energies w;
  sum_intensities := sum_intensities w; points_collected := points_collected w;
  selected_file := selected; file_paths := file_paths w;
  results_text := results_text w; drawn := drawn w; heap := heap w;
  files := files w; events := events w; dialogs := dialogs w |}.

(** binary64 samples: [x = 0, 0.1, 0.3, 1] (0.1 and 0.3 rounded to
    binary64), [y = 3] everywhere. *)
Definition float_rows : list (list PrimFloat.float) :=
  [[0; 3]; [0x1.999999999999ap-4; 3]; [0x1.3333333333333p-2; 3]; [1; 3]]%float.

Definition float_files (path : string) : option (file_text PrimFloat.float) :=
  if (path =? "/data/flat.txt")%string then Some (text_of float_rows) else None.

Definition float_click (x y : PrimFloat.float) : MouseEvent PrimFloat.float :=
  {| xdata := Some x; ydata := Some y |}.

Definition float_session (evs : list (MouseEvent PrimFloat.float)) : world PrimFloat.float :=
  snd (load_selected_file (fresh_session float_files "flat.txt" evs)).

(** The clicks of the scenario: x = 3, a click outside the axes, x = 1,
    and one more click that is not awaited. *)
Definition scenario_clicks : list (MouseEvent Qc) :=
  [click 3 0; outside; click 1 0; click 7 7].

(** The two clicks of equal x. *)
Definition vertical_clicks : list (MouseEvent float) :=
  [float_click 1 0; float_click 1 2]%float.

(** Clicks at x = 0 and x = 1: the window is the samples 0, 1, 2. *)
Definition window_clicks : list (MouseEvent float) :=
  [float_click 0 0; float_click 1 0]%float.

(** binary64 samples: [x = 0, 0.1, 0.2, ..., 1] (each [k / 10] rounded to
    binary64), [y = 3] everywhere. *)
Definition tenth_rows : list (list PrimFloat.float) :=
  map (fun k => [k / 10; 3]%float) [0; 1; 2; 3; 4; 5; 6; 7; 8; 9; 10]%float.




(** ** Choosing a folder *)

(** [s.endswith(suffix)]. *)
Definition ends_with (suffix s : string) : bool :=
  let n := String.length s in
  let m := String.length suffix in
  if (m <=? n)%nat then (substring (n - m) m s =? suffix)%string else false.

Definition starts_with_slash (s : string) : bool :=
  match s with
  | String c _ => Ascii.eqb c "/"
  | EmptyString => false
  end.

(** [os.path.join(folder, f)] for POSIX paths. *)
Definition path_join (folder f : string) : string :=
  if starts_with_slash f then f
  else if (folder =? "")%string || ends_with "/" folder then (folder ++ f)%string
  else (folder ++ "/" ++ f)%string.

(** The session with another list of paths. *)
Definition set_file_paths {A} (paths : list string) (w : world A) : world A := {|
  data := data w; binding_energies := binding_energies w;
  sum_intensities := sum_intensities w; points_collected := points_collected w;
  selected_file := selected_file w; file_paths := paths;
  results_text := results_text w; drawn := drawn w; heap := heap w;
  files := files w; events := events w; dialogs := dialogs w |}.

(** The session together with the entries the file selector offers
    ([file_selector['values']]). *)
Record gui (A : Type) : Type := {
  session : world A;
  selector_values : list string
}.

(** [load_data]; [folder] is what the folder dialog returned (empty when it
    was cancelled) and [listdir] is [os.listdir].  The selector shares its
    text with [selected_file], so [file_selector.set] changes that
    attribute. *)
Definition load_data {A} (folder : string) (listdir : string -> list string)
    (g : gui A) : outcome unit * gui A :=
  if (folder =? "")%string then (Ret tt, g)
  else
    let paths := map (path_join folder) (filter (ends_with ".txt") (listdir folder)) in
    let w := set_file_paths paths (session g) in
    match paths with
    | [] =>
        (Ret tt,
         {| session := set_dialogs (dialogs w ++
              [showerror "Error" "No text files found in the selected folder."]) w;
            selector_values := selector_values g |})
    | _ =>
        let w' := select "Select a file" w in
        (Ret tt,
         {| session := set_dialogs (dialogs w' ++
              [showinfo "Success" "Files loaded successfully!"]) w';
            selector_values := map basename paths |})
    end.

(** The session [__init__] builds: nothing loaded, nothing listed, nothing
    selected. *)
Definition init {A} (fs : string -> option (file_text A)) (evs : list (MouseEvent A))
  : gui A := {|
  session := {|
    data := None; binding_energies := None; sum_intensities := None;
    points_collected := None; selected_file := ""; file_paths := [];
    results_text := []; drawn := None; heap := []; files := fs;
    events := evs; dialogs := [] |};
  selector_values := [] |}.

(** ** Selecting a file *)

Section Selection.
Context {A : Type} `{Num A}.

(** An entry other than the placeholder is selected. *)
Definition selection_made (w : world A) : Prop :=
  ((selected_file w =? "") || (selected_file w =? "Select a file"))%string = false.

(** The first listed path whose base name is the selected entry. *)
Definition selected_path (w : world A) : option string :=
  find (fun f => (basename f =? selected_file w)%string) (file_paths w).

(** The numbers [np.loadtxt] reads from a text: blank lines dropped, every
    token converted. *)
Definition numbers_of (text : file_text A) : option (list (list A)) :=
  parse_rows (filter (fun r => negb (is_blank r)) text).

(** Nothing but the message boxes differs. *)
Definition only_dialogs (w w' : world A) (shown : list (dialog A)) : Prop :=
  w' = set_dialogs (dialogs w ++ shown) w.

End Selection.

(** ** More concrete sessions *)

(** What [os.listdir] finds: two spectra and a file that is not a text
    file in [/data], nothing but a picture in [/plots]. *)
Definition demo_listdir (folder : string) : list string :=
  if (folder =? "/data")%string then ["spectrum.txt"; "readme.md"; "flat.txt"]%string
  else if (folder =? "/plots")%string then ["figure.png"]%string
  else [].

(** The spectrum is loaded, and an entry whose file was deleted since the
    folder was listed is selected. *)
Definition gone_session : world Qc :=
  set_file_paths ["/data/gone.txt"%string]
    (select "gone.txt" (loaded_session "spectrum.txt" [])).

(** The window with the spectrum loaded and its selector filled. *)
Definition spectrum_gui : gui Qc := {|
  session := loaded_session "spectrum.txt" [];
  selector_values := ["spectrum.txt"; "flat.txt"]%string |}.

(** * Properties *)

(** ** Collecting clicks *)

Section Clicks.
Context {A : Type} `{Num A}.

(** A click without data coordinates is passed over: the induction
    hypothesis on the later clicks gives the result. *)
Ltac pass_over IH e :=
  let c := fresh "c" in
  let e' := fresh "e'" in
  let r := fresh "r" in
  destruct IH as (c & e' & r & -> & ? & ? & ?);
  exists (e :: c), e', r; simpl;
  repeat match goal with
         | E : xdata e = _ |- _ => rewrite E
         | E : ydata e = _ |- _ => rewrite E
         end;
  auto.

(** The wait loop, for an accumulator that still misses [k + 1] points. *)
Lemma wait_variable_collects (k : nat) :
  forall (evs : list (MouseEvent A)) (acc : list (A * A)) (n : nat),
    n = length acc + S k ->
    S k <= length (valid_clicks evs) ->
    exists consumed e rest,
      evs = consumed ++ e :: rest /\
      valid_clicks consumed = firstn k (valid_clicks evs) /\
      valid_clicks (consumed ++ [e]) = firstn (S k) (valid_clicks evs) /\
      wait_variable n acc evs = Some (acc ++ firstn (S k) (valid_clicks evs), rest).
Proof.
  induction k as [|k IHk].
  - induction evs as [|e evs IH]; intros acc n Hn Hlen; simpl in Hlen; [lia|].
    simpl. unfold onclick.
    destruct (xdata e) as [x|] eqn:Ex, (ydata e) as [y|] eqn:Ey;
      try (pass_over (IH acc n Hn Hlen) e; fail).
    rewrite length_app. simpl.
    replace (length acc + 1 =? n) with true by (symmetry; apply Nat.eqb_eq; lia).
    exists [], e, evs. simpl. rewrite Ex, Ey. repeat split; reflexivity.
  - induction evs as [|e evs IH]; intros acc n Hn Hlen; simpl in Hlen; [lia|].
    simpl. unfold onclick.
    destruct (xdata e) as [x|] eqn:Ex, (ydata e) as [y|] eqn:Ey;
      try (pass_over (IH acc n Hn Hlen) e; fail).
    rewrite length_app. simpl.
    replace (length acc + 1 =? n) with false by (symmetry; apply Nat.eqb_neq; lia).
    simpl in Hlen.
    destruct (IHk evs (acc ++ [(x, y)]) n) as (c & e' & r & -> & Hc & Hc' & Hw).
    { rewrite length_app. simpl. lia. }
    { lia. }
    exists (e :: c), e', r. simpl. rewrite Ex, Ey. rewrite Hw, Hc.
    simpl in Hc'. rewrite Hc'. rewrite <- app_assoc. simpl. auto.
Qed.

(** With too few valid clicks the variable is never set. *)
Lemma wait_variable_blocks :
  forall (evs : list (MouseEvent A)) (acc : list (A * A)) (n : nat),
    length acc + length (valid_clicks evs) < n ->
    wait_variable n acc evs = None.
Proof.
  induction evs as [|e evs IH]; intros acc n Hlt; simpl; [reflexivity|].
  unfold onclick. simpl in Hlt.
  destruct (xdata e) as [x|], (ydata e) as [y|]; try (apply IH; assumption).
  simpl in Hlt. rewrite length_app. simpl.
  replace (length acc + 1 =? n) with false by (symmetry; apply Nat.eqb_neq; lia).
  apply IH. rewrite length_app. simpl. lia.
Qed.

Lemma get_user_points_ret (n : nat) (w : world A) pts rest :
  wait_variable n [] (events w) = Some (pts, rest) ->
  get_user_points n w = (Ret pts, after_clicks n rest w).
Proof.
  intros Hw. unfold get_user_points, bind, modify, messagebox, gets, ret. simpl.
  rewrite Hw. reflexivity.
Qed.

Lemma get_user_points_blocked (n : nat) (w : world A) :
  wait_variable n [] (events w) = None ->
  fst (get_user_points n w) = Blocked.
Proof.
  intros Hw. unfold get_user_points, bind, modify, messagebox, gets, ret. simpl.
  rewrite Hw. reflexivity.
Qed.

End Clicks.

(** ** Lists, slices and the trapezoidal rule *)

Section Trapz.
Context {A : Type} `{Num A}.

Lemma seq_from (s k : nat) : seq s k = map (fun i => s + i) (seq 0 k).
Proof.
  revert s. induction k as [|k IH]; intros s; simpl; [reflexivity|].
  rewrite Nat.add_0_r. f_equal.
  rewrite (IH (S s)), (IH 1), map_map.
  apply map_ext. intros i. lia.
Qed.

Lemma combine_map_same {X Y Z} (f : X -> Y) (g : X -> Z) (l : list X) :
  combine (map f l) (map g l) = map (fun i => (f i, g i)) l.
Proof. induction l; simpl; congruence. Qed.

(** [l[1:]] paired with [l[:-1]], by index. *)
Lemma combine_tl_removelast (d : A) (l : list A) :
  combine (tl l) (removelast l) =
  map (fun i => (nth (S i) l d, nth i l d)) (seq 0 (length l - 1)).
Proof.
  induction l as [|a l IH]; [reflexivity|].
  destruct l as [|b l]; [reflexivity|].
  change (combine (tl (a :: b :: l)) (removelast (a :: b :: l)))
    with ((b, a) :: combine (tl (b :: l)) (removelast (b :: l))).
  rewrite IH.
  replace (length (a :: b :: l) - 1) with (S (length (b :: l) - 1)) by (simpl; lia).
  cbn [seq map]. f_equal.
  rewrite (seq_from 1), map_map. apply map_ext. intros i. reflexivity.
Qed.

Lemma length_tl {X} (l : list X) : length (tl l) = length l - 1.
Proof. destruct l; simpl; lia. Qed.

Lemma length_removelast {X} (l : list X) : length (removelast l) = length l - 1.
Proof.
  induction l as [|a l IH]; [reflexivity|].
  destruct l; [reflexivity|]. simpl in *. lia.
Qed.

Lemma broadcast2_same (f : A -> A -> A) (a b : list A) :
  length a = length b ->
  broadcast2 f a b = Some (map (fun p => f (fst p) (snd p)) (combine a b)).
Proof. intros E. unfold broadcast2. now rewrite E, Nat.eqb_refl. Qed.

Lemma np_trapz_by_index (y x : list A) :
  length x = length y ->
  np_trapz y x = Some (np_sum (map (trapz_term x y) (seq 0 (length x - 1)))).
Proof.
  intros E. unfold np_trapz, np_diff.
  rewrite (broadcast2_same add) by (now rewrite length_tl, length_removelast).
  rewrite (broadcast2_same mul)
    by (now rewrite !length_map, !length_combine, !length_tl, !length_removelast, E).
  f_equal. f_equal. unfold div_scalar.
  rewrite (combine_tl_removelast zero x), (combine_tl_removelast zero y), <- E.
  rewrite !map_map, combine_map_same, !map_map.
  apply map_ext. intros i. reflexivity.
Qed.

Lemma length_slice (a : list A) (s e : nat) :
  e <= length a -> length (slice a s e) = e - s.
Proof.
  intros He. unfold slice. rewrite length_firstn, length_skipn. lia.
Qed.

Lemma nth_slice (a : list A) (s e i : nat) (d : A) :
  i < e - s -> nth i (slice a s e) d = nth (s + i) a d.
Proof.
  intros Hi. unfold slice. rewrite nth_firstn.
  destruct (i <? e - s) eqn:E; [|apply Nat.ltb_ge in E; lia].
  apply nth_skipn.
Qed.

End Trapz.

(** ** The code's [np.trapz] against the sum the specification words *)

Section TrapzWindow.
Context {A : Type} `{Num A}.

Lemma np_trapz_window (x y : list A) (s e : nat) :
  length x = length y -> s < e -> e <= length x ->
  np_trapz (slice y s e) (slice x s e) =
  Some (np_sum (map (fun i => trapz_term x y (s + i)) (seq 0 (e - 1 - s)))).
Proof.
  intros E Hse He.
  rewrite np_trapz_by_index by (rewrite !length_slice; lia).
  rewrite length_slice by lia. f_equal. f_equal.
  replace (e - s - 1) with (e - 1 - s) by lia.
  apply map_ext_in. intros i Hi. apply in_seq in Hi.
  unfold trapz_term.
  rewrite !nth_slice by lia.
  now replace (s + S i) with (S (s + i)) by lia.
Qed.


End TrapzWindow.

(** ** [np.argmin] returns the first index of a smallest element *)

Section Argmin.
Context {A : Type} `{Num A}.

Lemma argmin_loop_bound (l : list A) :
  forall mp m i, m < i -> argmin_loop mp m i l < i + length l.
Proof.
  induction l as [|v l IH]; intros mp m i Hm; simpl; [lia|].
  destruct (negb (geb v mp)).
  - destruct (isnan v); [lia|].
    specialize (IH v i (S i)). lia.
  - specialize (IH mp m (S i)). lia.
Qed.

Lemma np_argmin_bound (l : list A) (i : nat) :
  np_argmin l = Some i -> i < length l.
Proof.
  destruct l as [|v l]; simpl; [discriminate|].
  intros [= <-]. destruct (isnan v); [lia|].
  pose proof (argmin_loop_bound l v (m := 0) (i := 1)). lia.
Qed.



(** The scan over the values of [full], once [pre] has been read and
    [l] is still to come. *)
Lemma argmin_loop_first (full : list A) (Hord : ordered_on full) (l : list A) :
  forall (pre : list A) (mp : A) (m : nat),
    full = pre ++ l ->
    m < length pre ->
    nth m pre zero = mp ->
    Forall (fun u => geb u mp = true) pre ->
    Forall (fun u => geb mp u = false) (firstn m pre) ->
    let r := argmin_loop mp m (length pre) l in
    Forall (fun u => geb u (nth r full zero) = true) full /\
    Forall (fun u => geb (nth r full zero) u = false) (firstn r full).
Proof.
  destruct Hord as (Hnan & Htot & Htr).
  induction l as [|v l IH]; intros pre mp m Hfull Hm Hmp Hall Hfirst r; subst r.
  - simpl. rewrite app_nil_r in Hfull. subst full. rewrite Hmp. auto.
  - assert (Iv : In v full) by (subst full; apply in_or_app; right; now left).
    assert (Ip : forall u, In u pre -> In u full)
      by (intros u Hu; subst full; apply in_or_app; now left).
    assert (Imp : In mp full) by (apply Ip; rewrite <- Hmp; now apply nth_In).
    assert (Hfull' : full = (pre ++ [v]) ++ l) by (now rewrite <- app_assoc).
    simpl. rewrite (Hnan v Iv).
    replace (S (length pre)) with (length (pre ++ [v])) by (rewrite length_app; simpl; lia).
    rewrite Forall_forall in Hall.
    destruct (geb v mp) eqn:Hv; simpl.
    + apply IH.
      * assumption.
      * rewrite length_app. simpl. lia.
      * now rewrite app_nth1.
      * apply Forall_app. split; [now apply Forall_forall|]. now constructor.
      * now rewrite firstn_app, (proj2 (Nat.sub_0_le m (length pre))), app_nil_r by lia.
    + assert (Hmv : geb mp v = true) by (destruct (Htot mp v Imp Iv); congruence).
      apply IH.
      * assumption.
      * rewrite length_app. simpl. lia.
      * now rewrite nth_middle.
      * apply Forall_app. split.
        -- apply Forall_forall. intros u Hu.
           exact (Htr u mp v (Ip u Hu) Imp Iv (Hall u Hu) Hmv).
        -- constructor; [|constructor]. destruct (Htot v v Iv Iv); assumption.
      * rewrite firstn_app, Nat.sub_diag, firstn_all. simpl. rewrite app_nil_r.
        apply Forall_forall. intros u Hu.
        destruct (geb v u) eqn:Hvu; [|reflexivity].
        rewrite (Htr v u mp Iv (Ip u Hu) Imp Hvu (Hall u Hu)) in Hv. discriminate.
Qed.

(** On values that can be ranked, [np.argmin] is the first index of a
    smallest one. *)
Lemma np_argmin_first_min_on (l : list A) (i : nat) :
  ordered_on l -> np_argmin l = Some i -> first_min l i.
Proof.
  intros Hord Hi. split; [now apply np_argmin_bound|].
  destruct l as [|v l]; [discriminate|].
  pose proof Hord as (Hnan & Htot & _).
  assert (Iv : In v (v :: l)) by now left.
  simpl in Hi. rewrite (Hnan v Iv) in Hi. injection Hi as <-.
  apply (argmin_loop_first Hord l (pre := [v]) (mp := v) (m := 0)); simpl.
  - reflexivity.
  - lia.
  - reflexivity.
  - constructor; [|constructor]. destruct (Htot v v Iv Iv); assumption.
  - constructor.
Qed.

Context `{!NumOrder A}.

Lemma ordered_on_all (l : list A) : ordered_on l.
Proof.
  repeat split.
  - intros a _. apply isnan_never.
  - intros a b _ _. apply geb_total.
  - intros a b c _ _ _. apply geb_trans.
Qed.

Lemma np_argmin_first_min (l : list A) (i : nat) :
  np_argmin l = Some i -> first_min l i.
Proof. apply np_argmin_first_min_on, ordered_on_all. Qed.

End Argmin.

(** ** Integration *)

Section Integrate.
Context {A : Type} `{Num A}.

Local Arguments sorted : simpl never.
Local Arguments np_argmin : simpl never.
Local Arguments np_trapz : simpl never.
Local Arguments slice : simpl never.
Local Arguments view_read : simpl never.

Lemma dataset_some (w : world A) (x y : list A) :
  dataset w = Some (x, y) ->
  exists d bx sy,
    data w = Some d /\ binding_energies w = Some bx /\ sum_intensities w = Some sy /\
    view_read (heap w) bx = x /\ view_read (heap w) sy = y.
Proof.
  unfold dataset. destruct (data w) as [d|]; [|discriminate].
  destruct (binding_energies w) as [bx|]; [|discriminate].
  destruct (sum_intensities w) as [sy|]; [|discriminate].
  intros [= <- <-]. exists d, bx, sy. auto.
Qed.

(** The world after the two clicks were collected. *)
Local Abbreviation clicked rest w := (after_clicks 2 rest w).

(** [calculate_intensities] on a loaded dataset, once the clicks and the
    snapped indices are known. *)
Lemma calculate_intensities_run (w : world A) (x y : list A) p1 p2 rest lo hi s e :
  dataset w = Some (x, y) ->
  wait_variable 2 [] (events w) = Some ([p1; p2], rest) ->
  sorted [fst p1; fst p2] = [lo; hi] ->
  np_argmin (np_abs (sub_scalar x lo)) = Some s ->
  np_argmin (np_abs (sub_scalar x hi)) = Some e ->
  calculate_intensities w =
  if e <=? s
  then (Ret tt, set_dialogs (dialogs (clicked rest w) ++
                  [showerror "Error" "Invalid range selected."]) (clicked rest w))
  else match np_trapz (slice y s e) (slice x s e) with
       | Some area =>
           (Ret tt,
            set_results_text
              (results_text w ++ [{| log_lower := lo; log_upper := hi; log_area := area |}])
              (set_dialogs (dialogs (clicked rest w) ++ [showinfo_intensity area])
                 (clicked rest w)))
       | None => (Raise ValueError, clicked rest w)
       end.
Proof.
  intros Hd Hw Hs Hlo Hhi.
  destruct (dataset_some _ Hd) as (d & bx & sy & Ed & Ebx & Esy & Ex & Ey).
  unfold calculate_intensities, bind at 1, gets at 1. rewrite Ed.
  unfold bind at 1. rewrite (get_user_points_ret _ _ Hw).
  cbn [length Nat.ltb Nat.leb map]. rewrite Hs.
  unfold orelse, read_attr, messagebox, modify.
  unfold bind, gets, ret, raise. simpl.
  rewrite Ebx. simpl. rewrite Ex, Hlo. simpl. rewrite Ebx. simpl. rewrite Ex, Hhi. simpl.
  destruct (e <=? s); [reflexivity|]. simpl.
  rewrite Esy. simpl. rewrite Ebx. simpl. rewrite Ex, Ey.
  destruct (np_trapz (slice y s e) (slice x s e)); reflexivity.
Qed.

Lemma same_arrays_dataset (w w' : world A) :
  same_arrays w w' -> dataset w' = dataset w.
Proof.
  intros (Hh & Hd & Hx & Hy & _). unfold dataset. now rewrite Hh, Hd, Hx, Hy.
Qed.

Ltac frame_solve :=
  unfold same_arrays, log_grows; simpl; repeat split; auto;
  try (left; reflexivity); eauto.

Lemma get_user_points_frame (n : nat) (w : world A) o w' :
  get_user_points n w = (o, w') ->
  same_arrays w w' /\ results_text w' = results_text w.
Proof.
  unfold get_user_points, bind, modify, messagebox, gets, ret, block. simpl.
  destruct (wait_variable n [] (events w)) as [[pts rest]|];
    intros [= <- <-]; frame_solve.
Qed.

Lemma calculate_intensities_frame (w : world A) o w' :
  calculate_intensities w = (o, w') ->
  same_arrays w w' /\ log_grows w w'.
Proof.
  unfold calculate_intensities, bind at 1, gets at 1.
  destruct (data w) as [d|].
  2:{ unfold messagebox, modify. intros [= <- <-]. frame_solve. }
  unfold bind at 1.
  destruct (get_user_points 2 w) as [[pts| |] w1] eqn:Hg;
    destruct (get_user_points_frame _ _ Hg) as [Hf Hr].
  2,3: intros [= <- <-]; split; [assumption|left; assumption].
  assert (G : forall w2, same_arrays w1 w2 -> log_grows w1 w2 ->
            same_arrays w w2 /\ log_grows w w2).
  { intros w2 (G1 & G2 & G3 & G4 & G5 & G6 & G7) G8.
    destruct Hf as (F1 & F2 & F3 & F4 & F5 & F6 & F7).
    unfold same_arrays, log_grows in *. rewrite <- Hr. intuition congruence. }
  unfold read_attr, orelse, messagebox, modify, bind, gets, ret, raise.
  repeat match goal with
         | |- context [match ?t with _ => _ end] =>
             lazymatch t with
             | context [match _ with _ => _ end] => fail
             | _ => destruct t eqn:?
             end
         | |- _ => progress simpl
         end;
    intros [= <- <-]; apply G; frame_solve.
Qed.

(** An operation that leaves the arrays alone keeps the session loaded. *)
Lemma same_arrays_loaded (w w' : world A) r rows :
  same_arrays w w' -> loaded_at w r rows -> loaded_at w' r rows.
Proof.
  intros (Hh & Hd & Hx & Hy & _) (Lh & Lx & Ly & Ld & Lr).
  unfold loaded_at. rewrite Hh, Hd, Hx, Hy. auto.
Qed.

Lemma calculate_intensities_loaded (w : world A) r rows :
  loaded_at w r rows -> loaded_at (snd (calculate_intensities w)) r rows.
Proof.
  intros Hl. destruct (calculate_intensities w) as [o w'] eqn:E.
  destruct (calculate_intensities_frame _ E) as [Hs _].
  exact (same_arrays_loaded Hs Hl).
Qed.

(** C10: [calculate_intensities] is read-only on the dataset.  Whatever
    the clicks are and however the call ends (an area, the invalid-range
    error, a missing dataset, an exception, or a wait that never ends), the
    x and y sequences are the same before and after it, as are the buffers
    on the heap, the attributes pointing to them and the drawn curve; the
    results log is unchanged or has one more line. *)
Theorem calculate_intensities_read_only (w : world A) :
  dataset (snd (calculate_intensities w)) = dataset w /\
  same_arrays w (snd (calculate_intensities w)) /\
  log_grows w (snd (calculate_intensities w)).
Proof.
  destruct (calculate_intensities w) as [o w'] eqn:E.
  destruct (calculate_intensities_frame _ E) as [Hs Hl]. simpl.
  repeat split; try assumption; try apply Hs.
  now apply same_arrays_dataset.
Qed.

(** C5: when the snapped indices satisfy [start_idx >= end_idx] (both
    bounds on one sample, or the order inverted after snapping),
    [calculate_intensities] reports "Invalid range selected." and produces
    no numeric result: no intensity dialog is shown, no line is logged and
    the dataset is unchanged. *)
Theorem calculate_intensities_invalid_range
    (w : world A) (x y : list A) p1 p2 rest lo hi s e :
  dataset w = Some (x, y) ->
  wait_variable 2 [] (events w) = Some ([p1; p2], rest) ->
  sorted [fst p1; fst p2] = [lo; hi] ->
  np_argmin (np_abs (sub_scalar x lo)) = Some s ->
  np_argmin (np_abs (sub_scalar x hi)) = Some e ->
  e <= s ->
  exists w',
    calculate_intensities w = (Ret tt, w') /\
    dialogs w' = dialogs w ++
      [showinfo_instructions 2; showerror "Error" "Invalid range selected."] /\
    results_text w' = results_text w /\
    dataset w' = dataset w.
Proof.
  intros Hd Hw Hs Hlo Hhi Hle.
  rewrite (calculate_intensities_run _ Hd Hw Hs Hlo Hhi).
  apply Nat.leb_le in Hle. rewrite Hle.
  eexists. split; [reflexivity|]. simpl.
  rewrite <- app_assoc. simpl. auto.
Qed.


End Integrate.

(** ** Writing through a view *)

Section Views.
Context {A : Type} `{Num A}.

Lemma length_set_nth (c : nat) (v : A) (row : list A) :
  length (set_nth c v row) = length row.
Proof.
  revert c. induction row as [|h t IH]; intros [|c]; simpl; auto.
Qed.

Lemma nth_set_nth_same (c : nat) (v d : A) (row : list A) :
  c < length row -> nth c (set_nth c v row) d = v.
Proof.
  revert c. induction row as [|h t IH]; intros [|c] Hc; simpl in *; try lia; auto.
  apply IH. lia.
Qed.

Lemma nth_set_nth_other (c c' : nat) (v d : A) (row : list A) :
  c <> c' -> nth c' (set_nth c v row) d = nth c' row d.
Proof.
  revert c c'. induction row as [|h t IH]; intros [|c] [|c'] Hc; simpl; auto; try lia.
Qed.

Lemma length_set_column (c : nat) (vals : list A) (rows : list (list A)) :
  length (set_column c vals rows) = length rows.
Proof.
  revert vals. induction rows as [|r rows IH]; intros [|v vals]; simpl; auto.
Qed.

Lemma column_set_column_other (c c' : nat) (vals : list A) (rows : list (list A)) :
  c <> c' -> column c' (set_column c vals rows) = column c' rows.
Proof.
  intros Hc. revert vals.
  induction rows as [|r rows IH]; intros [|v vals]; simpl; auto.
  now rewrite nth_set_nth_other, IH.
Qed.

Lemma column_set_column_same (c : nat) (vals : list A) (rows : list (list A)) :
  length vals = length rows ->
  Forall (fun r => c < length r) rows ->
  column c (set_column c vals rows) = vals.
Proof.
  revert vals. induction rows as [|r rows IH]; intros [|v vals] Hl Hr;
    simpl in *; try discriminate; auto.
  inversion Hr; subst. rewrite nth_set_nth_same by assumption.
  f_equal. apply IH; [lia|assumption].
Qed.

Lemma set_column_widths (c k : nat) (vals : list A) (rows : list (list A)) :
  Forall (fun r => k <= length r) rows ->
  Forall (fun r => k <= length r) (set_column c vals rows).
Proof.
  intros Hr. revert vals.
  induction Hr as [|r rows Hk Hr IH]; intros [|v vals]; simpl; auto.
  constructor; [now rewrite length_set_nth|apply IH].
Qed.

Lemma length_update_nth {T} (n : nat) (f : T -> T) (l : list T) :
  length (update_nth n f l) = length l.
Proof.
  revert n. induction l as [|h t IH]; intros [|n]; simpl; auto.
Qed.

Lemma nth_error_update_nth {T} (n m : nat) (f : T -> T) (l : list T) :
  nth_error (update_nth n f l) m =
  if n =? m then option_map f (nth_error l m) else nth_error l m.
Proof.
  revert n m. induction l as [|h t IH]; intros [|n] [|m]; simpl; auto.
  destruct (n =? m); reflexivity.
Qed.

(** A write never changes how many elements any view shows. *)
Lemma length_view_read_write (h : list (ndarray A)) (v v' : view) (vals : list A) :
  length (view_read (view_write h v vals) v') = length (view_read h v').
Proof.
  unfold view_read, view_write. rewrite nth_error_update_nth.
  destruct (base v =? base v'); [|reflexivity].
  destruct (nth_error h (base v')) as [[?|?|rows]|]; simpl; try reflexivity.
  unfold column. now rewrite !length_map, length_set_column.
Qed.

(** A write through one view does not show through a view of another
    column or of another buffer. *)
Lemma view_read_write_other (h : list (ndarray A)) (v v' : view) (vals : list A) :
  base v <> base v' \/ col v <> col v' ->
  view_read (view_write h v vals) v' = view_read h v'.
Proof.
  intros Hne. unfold view_read, view_write. rewrite nth_error_update_nth.
  destruct (base v =? base v') eqn:E; [|reflexivity].
  apply Nat.eqb_eq in E.
  destruct (nth_error h (base v')) as [[?|?|rows]|]; simpl; try reflexivity.
  apply column_set_column_other. destruct Hne; congruence.
Qed.

Lemma view_read_write_same (h : list (ndarray A)) (v : view) (vals : list A) rows :
  nth_error h (base v) = Some (Arr2 rows) ->
  length vals = length rows ->
  Forall (fun r => col v < length r) rows ->
  view_read (view_write h v vals) v = vals.
Proof.
  intros Hh Hl Hr. unfold view_read, view_write.
  rewrite nth_error_update_nth, Nat.eqb_refl, Hh. simpl.
  now apply column_set_column_same.
Qed.

End Views.

(** ** Background removal *)

Section Background.
Context {A : Type} `{Num A}.

Local Arguments view_read : simpl never.
Local Arguments view_write : simpl never.
Local Abbreviation clicked rest w := (after_clicks 2 rest w).

Ltac bg_solve :=
  unfold wrote_y; simpl; repeat split; try congruence; auto;
  try (left; congruence); eauto.

Lemma plot_data_frame (w : world A) o w' :
  plot_data w = (o, w') ->
  heap w' = heap w /\ data w' = data w /\
  binding_energies w' = binding_energies w /\
  sum_intensities w' = sum_intensities w /\
  results_text w' = results_text w.
Proof.
  unfold plot_data, read_attr, orelse, messagebox, modify, bind, gets, ret, raise.
  repeat match goal with
         | |- context [match ?t with _ => _ end] =>
             lazymatch t with
             | context [match _ with _ => _ end] => fail
             | _ => destruct t eqn:?
             end
         | |- _ => progress simpl
         end;
    intros [= <- <-]; simpl; auto.
Qed.

Lemma remove_background_frame (w : world A) o w' :
  remove_background w = (o, w') ->
  data w' = data w /\
  binding_energies w' = binding_energies w /\
  sum_intensities w' = sum_intensities w /\
  results_text w' = results_text w /\
  wrote_y w w'.
Proof.
  unfold remove_background, bind at 1, gets at 1.
  destruct (data w) as [d|] eqn:Ed.
  2:{ unfold messagebox, modify. intros [= <- <-]. bg_solve. }
  unfold bind at 1.
  destruct (get_user_points 2 w) as [[pts| |] w1] eqn:Hg;
    destruct (get_user_points_frame _ _ Hg) as [(F1 & F2 & F3 & F4 & _) Hr].
  2,3: intros [= <- <-]; bg_solve.
  destruct pts as [|[px py] [|[qx qy] [|? ?]]];
    try (intros [= <- <-]; bg_solve).
  destruct (if gtb px qx then (qx, qy, px, py) else (px, py, qx, qy))
    as [[[x1 y1] x2] y2].
  unfold read_attr, isub, orelse, bind, gets, ret, raise, modify.
  cbv beta. rewrite F3.
  destruct (binding_energies w) as [bx|] eqn:Ebx; simpl; rewrite ?F4.
  2:{ intros [= <- <-]. bg_solve. }
  destruct (sum_intensities w) as [sy|] eqn:Esy; simpl.
  2:{ intros [= <- <-]. bg_solve. }
  match goal with
  | |- context [if ?b then _ else _] => destruct b
  end.
  - simpl.
    match goal with
    | |- context [plot_data ?w2] =>
        destruct (plot_data w2) as [o2 w3] eqn:Hp;
        destruct (plot_data_frame _ Hp) as (P1 & P2 & P3 & P4 & P5)
    end.
    simpl in *. intros E.
    assert (w' = w3) by (destruct o2; congruence). subst w3.
    unfold wrote_y. rewrite P1, P2, P3, P4, P5. simpl. rewrite F1.
    repeat split; try congruence. right. eauto.
  - match goal with
    | |- context [match ?l with [] => _ | _ => _ end] =>
        destruct l as [|f0 [|? ?]]
    end; simpl.
    1,3: intros [= <- <-]; bg_solve.
    match goal with
    | |- context [plot_data ?w2] =>
        destruct (plot_data w2) as [o2 w3] eqn:Hp;
        destruct (plot_data_frame _ Hp) as (P1 & P2 & P3 & P4 & P5)
    end.
    simpl in *. intros E.
    assert (w' = w3) by (destruct o2; congruence). subst w3.
    unfold wrote_y. rewrite P1, P2, P3, P4, P5. simpl. rewrite F1.
    repeat split; try congruence. right. eauto.
Qed.

Lemma loaded_at_dataset (w : world A) r rows :
  loaded_at w r rows -> dataset w = Some (column 0 rows, column 1 rows).
Proof.
  intros (Hh & Hx & Hy & Hd & _). unfold dataset, view_read.
  rewrite Hd, Hx, Hy. simpl. now rewrite Hh.
Qed.

Lemma length_subtract_line slope intercept (x y : list A) :
  length x = length y -> length (subtract_line slope intercept x y) = length y.
Proof.
  intros E. unfold subtract_line. rewrite length_map, length_combine. lia.
Qed.

Lemma nth_subtract_line slope intercept (x y : list A) (i : nat) :
  length x = length y -> i < length y ->
  nth i (subtract_line slope intercept x y) zero =
  sub (nth i y zero) (add (mul slope (nth i x zero)) intercept).
Proof.
  intros E Hi. unfold subtract_line.
  rewrite (nth_indep _ zero
    (sub (snd (zero, zero)) (add (mul slope (fst (zero, zero))) intercept)))
    by (rewrite length_map, length_combine; lia).
  rewrite (map_nth (fun p => sub (snd p) (add (mul slope (fst p)) intercept))).
  now rewrite combine_nth.
Qed.

Lemma isub_fit_subtract_line slope intercept (x y : list A) :
  length x = length y ->
  map (fun p => sub (fst p) (snd p))
    (combine y (add_scalar (scalar_mul slope x) intercept)) =
  subtract_line slope intercept x y.
Proof.
  unfold subtract_line, add_scalar, scalar_mul. rewrite map_map.
  revert y. induction x as [|a x IH]; intros [|b y] E; simpl in *;
    try discriminate; auto.
  f_equal. apply IH. lia.
Qed.

Lemma remove_background_run (w : world A) r rows p1 p2 rest :
  loaded_at w r rows ->
  wait_variable 2 [] (events w) = Some ([p1; p2], rest) ->
  remove_background w = (Ret tt, background_removed p1 p2 r rows (clicked rest w)).
Proof.
  intros (Hh & Hx & Hy & Hd & Hr) Hw.
  assert (Hlen : length (column 0 rows) = length (column 1 rows))
    by (unfold column; now rewrite !length_map).
  unfold remove_background, bind at 1, gets at 1. rewrite Hd.
  unfold bind at 1. rewrite (get_user_points_ret _ _ Hw).
  destruct p1 as [px py], p2 as [qx qy].
  assert (Rx : view_read (heap w) {| base := r; col := 0 |} = column 0 rows)
    by (unfold view_read; simpl; now rewrite Hh).
  assert (Ry : view_read (heap w) {| base := r; col := 1 |} = column 1 rows)
    by (unfold view_read; simpl; now rewrite Hh).
  assert (Hfit : forall s i, length (add_scalar (scalar_mul s (column 0 rows)) i)
                             = length (column 1 rows))
    by (intros; unfold add_scalar, scalar_mul; now rewrite !length_map).
  assert (Hplot : forall s i,
    plot_data (set_heap (view_write (heap w) {| base := r; col := 1 |}
                 (subtract_line s i (column 0 rows) (column 1 rows))) (clicked rest w)) =
    (Ret tt, set_drawn (Some (column 0 rows,
                              subtract_line s i (column 0 rows) (column 1 rows)))
       (set_heap (view_write (heap w) {| base := r; col := 1 |}
                 (subtract_line s i (column 0 rows) (column 1 rows))) (clicked rest w)))).
  { intros s i. unfold plot_data, read_attr, orelse, bind, gets, ret, raise, modify.
    simpl. rewrite Hd. simpl. rewrite Hx. simpl. rewrite Hy. simpl.
    rewrite view_read_write_other by (right; simpl; lia).
    rewrite (fun vals => @view_read_write_same A _ (heap w) {| base := r; col := 1 |} vals rows Hh).
    - rewrite Rx, length_subtract_line, Hlen, Nat.eqb_refl by assumption. reflexivity.
    - rewrite length_subtract_line by assumption. unfold column. now rewrite length_map.
    - eapply Forall_impl; [|exact Hr]. simpl. intros; lia. }
  unfold background_removed, intercept_of, slope_of, ordered_points.
  cbn [fst snd].
  destruct (gtb px qx); cbn [fst snd].
  all: unfold read_attr, isub, orelse, bind, gets, ret, raise, modify; simpl.
  all: rewrite Hx; simpl; rewrite Hy; simpl.
  all: rewrite Rx, Ry, Hfit, Nat.eqb_refl, isub_fit_subtract_line by assumption.
  all: apply Hplot.
Qed.

Lemma background_removed_loaded (w : world A) r rows p1 p2 :
  loaded_at w r rows ->
  loaded_at (background_removed p1 p2 r rows w) r
    (set_column 1
       (subtract_line (slope_of p1 p2) (intercept_of p1 p2)
          (column 0 rows) (column 1 rows)) rows).
Proof.
  intros (Hh & Hx & Hy & Hd & Hr).
  unfold loaded_at, background_removed. simpl. repeat split; try assumption.
  - unfold view_write. simpl. now rewrite nth_error_update_nth, Nat.eqb_refl, Hh.
  - now apply set_column_widths.
Qed.

Lemma after_clicks_loaded (w : world A) r rows n rest :
  loaded_at w r rows -> loaded_at (after_clicks n rest w) r rows.
Proof. intros Hl. exact Hl. Qed.

(** C9: [remove_background] changes only the y sequence.  On a loaded
    dataset the x sequence (the binding energies) is the same before and
    after the call, whatever the clicks are and however the call ends. *)
Theorem remove_background_keeps_x (w : world A) r rows o w' :
  loaded_at w r rows ->
  remove_background w = (o, w') ->
  option_map fst (dataset w) = Some (column 0 rows) /\
  option_map fst (dataset w') = Some (column 0 rows) /\
  binding_energies w' = binding_energies w.
Proof.
  intros Hl Hrun.
  pose proof (loaded_at_dataset Hl) as Hds.
  destruct Hl as (Hh & Hx & Hy & Hd & Hr).
  destruct (remove_background_frame _ Hrun) as (Fd & Fx & Fy & _ & Fh).
  split; [now rewrite Hds|]. split; [|assumption].
  unfold dataset. rewrite Fd, Fx, Fy, Hd, Hx, Hy. simpl. f_equal.
  destruct Fh as [-> | (sy & vals & Hsy & ->)].
  - unfold view_read. simpl. now rewrite Hh.
  - rewrite Hy in Hsy. injection Hsy as <-.
    rewrite view_read_write_other by (right; simpl; lia).
    unfold view_read. simpl. now rewrite Hh.
Qed.

(** One background removal on a loaded dataset. *)
Lemma remove_background_once (w : world A) r rows p1 p2 rest :
  loaded_at w r rows ->
  wait_variable 2 [] (events w) = Some ([p1; p2], rest) ->
  exists w' rows',
    remove_background w = (Ret tt, w') /\
    loaded_at w' r rows' /\
    events w' = rest /\
    column 0 rows' = column 0 rows /\
    column 1 rows' =
      subtract_line (slope_of p1 p2) (intercept_of p1 p2) (column 0 rows) (column 1 rows).
Proof.
  intros Hl Hw.
  exists (background_removed p1 p2 r rows (clicked rest w)).
  eexists. split; [now apply remove_background_run|].
  split; [apply background_removed_loaded, after_clicks_loaded, Hl|].
  split; [reflexivity|].
  destruct Hl as (_ & _ & _ & _ & Hr).
  split.
  - apply column_set_column_other. lia.
  - apply column_set_column_same.
    + rewrite length_subtract_line; unfold column; now rewrite !length_map.
    + eapply Forall_impl; [|exact Hr]. simpl. intros; lia.
Qed.

(** However [remove_background] ends, the session stays loaded, with the
    same first column. *)
Lemma remove_background_loaded (w : world A) r rows :
  loaded_at w r rows ->
  exists rows',
    loaded_at (snd (remove_background w)) r rows' /\
    column 0 rows' = column 0 rows.
Proof.
  intros (Lh & Lx & Ly & Ld & Lr).
  destruct (remove_background w) as [o w'] eqn:E.
  destruct (remove_background_frame _ E) as (Fd & Fx & Fy & _ & Fh). simpl.
  destruct Fh as [Hh | (sy & vals & Hsy & Hh)].
  - exists rows. unfold loaded_at. rewrite Hh, Fd, Fx, Fy. repeat split; assumption || reflexivity.
  - rewrite Ly in Hsy. injection Hsy as <-.
    exists (set_column 1 vals rows). split.
    + unfold loaded_at. rewrite Hh, Fd, Fx, Fy. repeat split; try assumption.
      * unfold view_write. simpl. now rewrite nth_error_update_nth, Nat.eqb_refl, Lh.
      * now apply set_column_widths.
    + apply column_set_column_other. lia.
Qed.

End Background.

(** ** Loading a file *)

Section Load.
Context {A : Type} `{Num A}.

Lemma squeeze_2d (rows rows' : list (list A)) :
  squeeze rows = Arr2 rows' ->
  rows' = rows /\ 2 <= length rows /\ 2 <= length (hd [] rows) \/
  rows' = rows /\ hd [] rows = [].
Proof.
  destruct rows as [|r [|r' rs]]; simpl.
  - discriminate.
  - destruct r as [|a [|b l]]; discriminate.
  - destruct r as [|a [|b l]]; try discriminate; intros [= <-]; simpl.
    + right. auto.
    + left. repeat split; lia.
Qed.

Lemma same_width_widths (rows : list (list A)) (k : nat) :
  same_width rows = true ->
  k <= length (hd [] rows) ->
  Forall (fun r => k <= length r) rows.
Proof.
  destruct rows as [|r rows]; simpl; intros Hw Hk; constructor; [assumption|].
  apply Forall_forall. intros r' Hin.
  rewrite forallb_forall in Hw. specialize (Hw r' Hin).
  apply Nat.eqb_eq in Hw. lia.
Qed.

Lemma np_loadtxt_spec (w : world A) path o w1 :
  np_loadtxt path w = (o, w1) ->
  (w1 = w /\ (o = Raise IOError \/ o = Raise ValueError)) \/
  (exists rows, same_width rows = true /\ o = Ret (length (heap w)) /\
                w1 = set_heap (heap w ++ [squeeze rows]) w).
Proof.
  unfold np_loadtxt, orelse, bind, gets, modify, ret, raise.
  destruct (files w path) as [text|]; [|intros [= <- <-]; auto].
  match goal with
  | |- context [parse_rows ?t] => destruct (parse_rows t) as [rows|]
  end; [|intros [= <- <-]; auto].
  destruct (same_width rows) eqn:Hsw; intros [= <- <-]; eauto.
Qed.

Local Arguments String.append : simpl never.

Lemma load_selected_file_cases (w : world A) o w' :
  load_selected_file w = (o, w') ->
  (o = Ret tt /\ exists rows, load_replaced w w' rows) \/ load_refused w w'.
Proof.
  assert (R0 : load_refused w w).
  { unfold load_refused. repeat split; auto. exists []. now rewrite app_nil_r. }
  assert (R1 : forall msg, load_refused w (set_dialogs (dialogs w ++ [showerror "Error" msg]) w)).
  { intros msg. unfold load_refused. simpl. repeat split; eauto.
    exists []. now rewrite app_nil_r. }
  unfold load_selected_file, bind at 1, gets at 1.
  destruct ((selected_file w =? "")%string || (selected_file w =? "Select a file")%string).
  { intros [= <- <-]. now right. }
  unfold bind at 1, gets at 1, bind at 1, orelse at 1.
  destruct (find _ (file_paths w)) as [file_path|].
  2:{ intros [= <- <-]. now right. }
  unfold ret at 1, try_except, bind at 1.
  destruct (np_loadtxt file_path w) as [o1 w1] eqn:E1.
  destruct (np_loadtxt_spec _ _ E1) as [(-> & [-> | ->]) | (rows & Hsw & -> & ->)].
  1,2: unfold messagebox, modify; intros [= <- <-]; right; apply R1.
  unfold index_col, bind, gets, modify, ret, raise, messagebox. simpl.
  rewrite nth_error_app2, Nat.sub_diag by lia. simpl.
  destruct (squeeze rows) as [?|?|rows'] eqn:Hsq.
  1,2: intros [= <- <-]; right; unfold load_refused; simpl; repeat split; eauto.
  destruct (squeeze_2d _ Hsq) as [(-> & Hn & Hm) | (-> & Hm)].
  - replace (0 <? length (hd [] rows)) with true by (symmetry; apply Nat.ltb_lt; lia).
    simpl. rewrite nth_error_app2, Nat.sub_diag by lia. simpl.
    replace (1 <? length (hd [] rows)) with true by (symmetry; apply Nat.ltb_lt; lia).
    simpl. intros [= <- <-]. left. split; [reflexivity|]. exists rows.
    unfold load_replaced, loaded_at. simpl. repeat split; auto.
    + now rewrite nth_error_app2, Nat.sub_diag by lia.
    + now apply same_width_widths.
  - rewrite Hm. simpl. intros [= <- <-]. right. unfold load_refused. simpl.
    repeat split; eauto.
Qed.

Lemma load_replaced_ok (w w' : world A) rows :
  load_replaced w w' rows -> dataset_ok w'.
Proof.
  intros (Hl & Hn & _). exists (column 0 rows), (column 1 rows).
  split; [exact (loaded_at_dataset Hl)|].
  unfold column. rewrite !length_map. split; [reflexivity|].
  destruct rows; simpl in *; [lia|discriminate].
Qed.

Lemma load_refused_not_success (w w' : world A) msg :
  load_refused w w' -> dialogs w' <> dialogs w ++ [showinfo "Success" msg].
Proof.
  intros (_ & _ & _ & _ & [Hd | [m Hd]]) E; rewrite Hd in E.
  - apply (f_equal (@length _)) in E. rewrite length_app in E. simpl in E. lia.
  - apply app_inj_tail in E. destruct E as [_ E]. discriminate.
Qed.

(** A refused load leaves the loaded dataset as it was. *)
Lemma load_refused_keeps_dataset (w w' : world A) r rows :
  loaded_at w r rows -> load_refused w w' -> dataset w' = dataset w.
Proof.
  intros Hl (Hd & Hx & Hy & [extra Hh] & _).
  rewrite (loaded_at_dataset Hl).
  destruct Hl as (Hr & Ex & Ey & Ed & _).
  unfold dataset, view_read. rewrite Hd, Hx, Hy, Ed, Ex, Ey, Hh. simpl.
  rewrite nth_error_app1 by (apply nth_error_Some; congruence).
  now rewrite Hr.
Qed.

Lemma plot_data_ok (w : world A) : dataset_ok w -> dataset_ok (snd (plot_data w)).
Proof.
  intros (x & y & Hd & Hl & Hne).
  destruct (plot_data w) as [o w'] eqn:E.
  destruct (plot_data_frame _ E) as (Fh & Fd & Fx & Fy & _). simpl.
  exists x, y. repeat split; try assumption.
  unfold dataset. rewrite Fh, Fd, Fx, Fy. exact Hd.
Qed.

Lemma remove_background_ok (w : world A) :
  dataset_ok w -> dataset_ok (snd (remove_background w)).
Proof.
  intros (x & y & Hd & Hl & Hne).
  destruct (remove_background w) as [o w'] eqn:E.
  destruct (remove_background_frame _ E) as (Fd & Fx & Fy & _ & Fh). simpl.
  destruct (dataset_some _ Hd) as (d & bx & sy & Ed & Ebx & Esy & Ex & Ey).
  exists (view_read (heap w') bx), (view_read (heap w') sy).
  unfold dataset. rewrite Fd, Fx, Fy, Ed, Ebx, Esy.
  split; [reflexivity|].
  assert (Hlen : forall v, length (view_read (heap w') v) = length (view_read (heap w) v)).
  { intros v. destruct Fh as [-> | (sy' & vals & _ & ->)]; [reflexivity|].
    apply length_view_read_write. }
  rewrite !Hlen, Ex, Ey. split; [assumption|].
  intros Hnil. apply (f_equal (@length _)) in Hnil. rewrite Hlen, Ex in Hnil.
  destruct x; [congruence|discriminate].
Qed.

Lemma calculate_intensities_ok (w : world A) :
  dataset_ok w -> dataset_ok (snd (calculate_intensities w)).
Proof.
  intros (x & y & Hd & Hl & Hne). exists x, y.
  destruct (calculate_intensities w) as [o w'] eqn:E.
  destruct (calculate_intensities_frame _ E) as [Hs _]. simpl.
  rewrite (same_arrays_dataset Hs). auto.
Qed.

End Load.

(** ** Exact arithmetic *)

#[export] Instance Qc_NumOrder : NumOrder Qc.
Proof.
  split.
  - reflexivity.
  - intros a b. simpl.
    destruct (Qlt_le_dec (this a) (this b)) as [Hlt | Hle].
    + right. apply Qle_bool_iff. now apply Qlt_le_weak.
    + left. now apply Qle_bool_iff.
  - intros a b c. simpl. rewrite !Qle_bool_iff. intros Hab Hbc.
    eapply Qle_trans; eassumption.
Qed.

Section Exact.
Local Open Scope Qc_scope.

Lemma two_Qc : Q2Qc 2 = 1 + 1.
Proof. apply Qc_is_canon. reflexivity. Qed.

Lemma two_Qc_nonzero : 1 + 1 <> (0 : Qc).
Proof. intros E. apply (f_equal this) in E. discriminate E. Qed.

(** On a flat signal a trapezoid is a rectangle. *)
Lemma trapz_term_flat (x y : list Qc) (c : Qc) (i : nat) :
  nth i y 0 = c -> nth (S i) y 0 = c ->
  trapz_term x y i = c * (nth (S i) x 0 - nth i x 0).
Proof.
  intros Hi HSi. unfold trapz_term. cbn [add sub mul div two zero Qc_Num].
  change (Q2Qc 0) with (0 : Qc). rewrite Hi, HSi, two_Qc.
  field. exact two_Qc_nonzero.
Qed.

(** The rectangles between consecutive samples add up to one rectangle. *)
Lemma rectangles_telescope (f : nat -> Qc) (c : Qc) (a k : nat) (acc : Qc) :
  fold_left Qcplus (map (fun i => c * (f (S (a + i)%nat) - f (a + i)%nat)) (seq 0 k)) acc =
  acc + c * (f (a + k)%nat - f a).
Proof.
  revert acc. induction k as [|k IH]; intros acc.
  - simpl. rewrite Nat.add_0_r. ring.
  - rewrite seq_S, map_app, fold_left_app, IH. simpl.
    replace (a + S k)%nat with (S (a + k)) by lia. ring.
Qed.

(** *** The order of the additions does not matter in exact arithmetic *)

Lemma fold_left_Qcplus (l : list Qc) (acc : Qc) :
  fold_left Qcplus l acc = acc + fold_left Qcplus l 0.
Proof.
  revert acc. induction l as [|v l IH]; intros acc; simpl.
  - ring.
  - rewrite (IH (acc + v)), (IH (0 + v)). ring.
Qed.

Lemma total_app (a b : list Qc) :
  fold_left Qcplus (a ++ b) 0 = fold_left Qcplus a 0 + fold_left Qcplus b 0.
Proof. rewrite fold_left_app. apply fold_left_Qcplus. Qed.

Lemma total_split (n : nat) (a : list Qc) :
  fold_left Qcplus (firstn n a) 0 + fold_left Qcplus (skipn n a) 0 = fold_left Qcplus a 0.
Proof. now rewrite <- total_app, firstn_skipn. Qed.

Lemma add_lanes_total (r b : list Qc) :
  length r = length b ->
  fold_left Qcplus (add_lanes r b) 0 = fold_left Qcplus r 0 + fold_left Qcplus b 0.
Proof.
  revert b. induction r as [|u r IH]; intros [|v b] E; try discriminate E.
  - simpl. ring.
  - injection E as E. unfold add_lanes in *. cbn [combine map fst snd fold_left].
    rewrite (fold_left_Qcplus _ (0 + add u v)), (fold_left_Qcplus r (0 + u)),
      (fold_left_Qcplus b (0 + v)), (IH b E).
    cbn [add Qc_Num]. ring.
Qed.

Lemma length_add_lanes (r b : list Qc) :
  length r = length b -> length (add_lanes r b) = length r.
Proof.
  intros E. unfold add_lanes. rewrite length_map, length_combine. lia.
Qed.

Lemma add_blocks_total (fuel : nat) :
  forall r rest : list Qc,
    length r = 8%nat ->
    length (fst (add_blocks fuel r rest)) = 8%nat /\
    fold_left Qcplus (fst (add_blocks fuel r rest)) 0 +
    fold_left Qcplus (snd (add_blocks fuel r rest)) 0 =
    fold_left Qcplus r 0 + fold_left Qcplus rest 0.
Proof.
  induction fuel as [|f IH]; intros r rest Hr; cbn [add_blocks].
  - auto.
  - destruct (8 <=? length rest)%nat eqn:E; [|auto].
    apply Nat.leb_le in E.
    assert (L : length r = length (firstn 8 rest)) by (rewrite length_firstn; lia).
    destruct (IH (add_lanes r (firstn 8 rest)) (skipn 8 rest)) as [H8 Ht].
    { now rewrite length_add_lanes. }
    split; [assumption|].
    rewrite Ht, add_lanes_total, <- (total_split 8 rest) by assumption. ring.
Qed.

Lemma sum8_total (r : list Qc) :
  length r = 8%nat -> sum8 r = fold_left Qcplus r 0.
Proof.
  do 9 (destruct r as [|? r]; try discriminate). intros _.
  cbn [sum8 fold_left add Qc_Num]. ring.
Qed.

Lemma pairwise_sum_unfold (fuel : nat) (a : list Qc) :
  pairwise_sum fuel a =
  if (length a <? 8)%nat then fold_left Qcplus a 0
  else if (length a <=? 128)%nat then
    fold_left Qcplus (snd (add_blocks (length a) (firstn 8 a) (skipn 8 a)))
      (sum8 (fst (add_blocks (length a) (firstn 8 a) (skipn 8 a))))
  else
    match fuel with
    | O => 0
    | S f =>
        pairwise_sum f (firstn (length a / 2 - (length a / 2) mod 8) a) +
        pairwise_sum f (skipn (length a / 2 - (length a / 2) mod 8) a)
    end.
Proof.
  destruct fuel; cbn [pairwise_sum];
    destruct (add_blocks (length a) (firstn 8 a) (skipn 8 a)); reflexivity.
Qed.

Lemma pairwise_sum_total (fuel : nat) :
  forall a : list Qc, (length a <= fuel)%nat -> pairwise_sum fuel a = fold_left Qcplus a 0.
Proof.
  induction fuel as [|f IH]; intros a Ha; rewrite pairwise_sum_unfold;
    destruct (length a <? 8)%nat eqn:E8; try reflexivity;
    apply Nat.ltb_ge in E8;
    (destruct (length a <=? 128)%nat eqn:E128;
     [ destruct (@add_blocks_total (length a) (firstn 8 a) (skipn 8 a)) as [H8 Ht];
       [ rewrite length_firstn; lia
       | rewrite fold_left_Qcplus, (sum8_total _ H8), Ht; apply total_split ]
     | apply Nat.leb_gt in E128 ]).
  - lia.
  - set (n2 := (length a / 2 - (length a / 2) mod 8)%nat).
    assert (B : (0 < n2 < length a)%nat).
    { subst n2. pose proof (Nat.mod_upper_bound (length a / 2) 8).
      pose proof (Nat.div_mod_eq (length a) 2).
      pose proof (Nat.mod_upper_bound (length a) 2). lia. }
    rewrite !IH by (rewrite ?length_firstn, ?length_skipn; lia).
    apply total_split.
Qed.

(** In exact arithmetic [arr.sum()] is the sum of the elements in any
    order, in particular from left to right. *)
Lemma np_sum_exact (l : list Qc) : np_sum l = fold_left Qcplus l 0.
Proof.
  destruct l as [|v l]; [reflexivity|].
  unfold np_sum. rewrite pairwise_sum_total by lia.
  cbn [add zero Qc_Num]. change (Q2Qc 0) with (0 : Qc). ring.
Qed.

Lemma np_trapz_flat (x y : list Qc) (s e : nat) (c : Qc) :
  length x = length y -> (s < e)%nat -> (e <= length x)%nat ->
  (forall i, (s <= i < e)%nat -> nth i y zero = c) ->
  np_trapz (slice y s e) (slice x s e) =
  Some (mul c (sub (nth (e - 1) x zero) (nth s x zero))).
Proof.
  intros Hlen Hse He Hc.
  rewrite np_trapz_window by assumption. f_equal.
  rewrite (map_ext_in _ (fun i => c * (nth (S (s + i)%nat) x 0 - nth (s + i)%nat x 0))).
  - rewrite np_sum_exact. cbn [add sub mul zero Qc_Num]. change (Q2Qc 0) with (0 : Qc).
    rewrite (rectangles_telescope (fun i => nth i x 0)).
    replace (s + (e - 1 - s))%nat with (e - 1)%nat by lia. ring.
  - intros i Hi. apply in_seq in Hi.
    apply trapz_term_flat; apply Hc; lia.
Qed.
(** C4 (in exact arithmetic): when [y] is the constant [c] on the snapped
    window and [start_idx < end_idx], the reported and logged area is
    [c * (x[end_idx - 1] - x[start_idx])]: the right edge of the rectangle
    is the sample before [end_idx]. *)
Theorem calculate_intensities_flat
    (w : world Qc) (x y : list Qc) p1 p2 rest lo hi start_idx end_idx (c : Qc) :
  dataset w = Some (x, y) ->
  length x = length y ->
  wait_variable 2 [] (events w) = Some ([p1; p2], rest) ->
  sorted [fst p1; fst p2] = [lo; hi] ->
  np_argmin (np_abs (sub_scalar x lo)) = Some start_idx ->
  np_argmin (np_abs (sub_scalar x hi)) = Some end_idx ->
  (start_idx < end_idx)%nat ->
  (forall i, (start_idx <= i < end_idx)%nat -> nth i y zero = c) ->
  let area := mul c (sub (nth (end_idx - 1) x zero) (nth start_idx x zero)) in
  calculate_intensities w =
  (Ret tt,
   set_results_text
     (results_text w ++ [{| log_lower := lo; log_upper := hi; log_area := area |}])
     (set_dialogs
        (dialogs (after_clicks 2 rest w) ++ [showinfo_intensity area])
        (after_clicks 2 rest w))).
Proof.
  intros Hd Hlen Hw Hs Hlo Hhi Hse Hc area.
  rewrite (calculate_intensities_run _ Hd Hw Hs Hlo Hhi).
  destruct (end_idx <=? start_idx)%nat eqn:E; [apply Nat.leb_le in E; lia|].
  pose proof (np_argmin_bound _ Hhi) as He.
  unfold np_abs, sub_scalar in He. rewrite !length_map in He.
  rewrite (@np_trapz_flat x y start_idx end_idx c) by (assumption || lia).
  reflexivity.
Qed.

End Exact.

(** ** The invariant of the dataset *)

Section Invariant.
Context {A : Type} `{Num A}.

(** C8: a load that reports success leaves a dataset with as many x as y
    and at least one sample, and plotting, background removal and
    integration keep that invariant, however they end. *)
Theorem dataset_lengths_invariant :
  (forall (w : world A) o w',
     load_selected_file w = (o, w') ->
     dialogs w' = dialogs w ++
       [showinfo "Success" ("Loaded " ++ selected_file w ++ " successfully!")%string] ->
     dataset_ok w') /\
  (forall w : world A, dataset_ok w -> dataset_ok (snd (plot_data w))) /\
  (forall w : world A, dataset_ok w -> dataset_ok (snd (remove_background w))) /\
  (forall w : world A, dataset_ok w -> dataset_ok (snd (calculate_intensities w))).
Proof.
  split; [|split; [|split]].
  - intros w o w' Hrun Hdlg.
    destruct (load_selected_file_cases _ Hrun) as [(_ & rows & Hrep) | Href].
    + eapply load_replaced_ok; eassumption.
    + exfalso. eapply load_refused_not_success; eassumption.
  - apply plot_data_ok.
  - apply remove_background_ok.
  - apply calculate_intensities_ok.
Qed.

(** C6: for a positive [n], [get_user_points n] returns exactly the first
    [n] clicks that carry data coordinates, in click order; clicks outside
    the axes are skipped without being counted, the wait ends at the n-th
    valid click and every later click stays pending, undelivered.  With
    fewer than [n] valid clicks the call never returns. *)
Theorem get_user_points_collects (n : nat) (w : world A) :
  0 < n ->
  (n <= length (valid_clicks (events w)) ->
   exists consumed e rest,
     events w = consumed ++ e :: rest /\
     valid_clicks consumed = firstn (n - 1) (valid_clicks (events w)) /\
     valid_clicks (consumed ++ [e]) = firstn n (valid_clicks (events w)) /\
     length (firstn n (valid_clicks (events w))) = n /\
     get_user_points n w =
       (Ret (firstn n (valid_clicks (events w))), after_clicks n rest w)) /\
  (length (valid_clicks (events w)) < n ->
   fst (get_user_points n w) = Blocked).
Proof.
  intros Hn. split.
  - intros Hlen. destruct n as [|k]; [lia|].
    destruct (@wait_variable_collects A k (events w) [] (S k))
      as (c & e & r & Hev & Hc & Hc' & Hw); [reflexivity|assumption|].
    exists c, e, r. replace (S k - 1) with k by lia.
    repeat split; try assumption.
    + rewrite length_firstn. lia.
    + apply get_user_points_ret. exact Hw.
  - intros Hlt. apply get_user_points_blocked.
    apply wait_variable_blocks. simpl. lia.
Qed.

End Invariant.

(** ** The claims on concrete sessions *)

Lemma spectrum_session_loaded evs :
  loaded_at (loaded_session "spectrum.txt" evs) 0 spectrum_rows.
Proof.
  unfold loaded_at. repeat split; try reflexivity.
  repeat constructor.
Qed.

(** The scenario of the specification: the window is the samples 1 and 2
    and the area is [(2 - 1) * (1 + 4) / 2 = 5/2]. *)
Example scenario_area :
  map (fun l => this (log_area l))
    (results_text (snd (calculate_intensities
       (loaded_session "spectrum.txt" scenario_clicks)))) = [(5 # 2)%Q].
Proof. vm_compute. reflexivity. Qed.

(** The points (0, 0) and (4, 0) give slope 0 and intercept 0: [y] is kept. *)
Example zero_background_keeps_y :
  option_map (fun d => map this (snd d))
    (dataset (snd (remove_background
       (loaded_session "spectrum.txt" [click 0 0; click 4 0])))) =
  Some [0; 1; 4; 1; 0]%Q.
Proof. vm_compute. reflexivity. Qed.

(** A token that is not a number: the format error is shown and the
    dataset stays. *)
Example load_bad_token :
  let w := select "notes.txt" (loaded_session "spectrum.txt" []) in
  let w' := snd (load_selected_file w) in
  fst (load_selected_file w) = Ret tt /\
  dialogs w' = dialogs w ++
    [showerror "Error" "Failed to load notes.txt: Invalid data format."] /\
  dataset w' = dataset w.
Proof. cbv zeta. split; [|split]; vm_compute; reflexivity. Qed.

(** A file with one line of two numbers is read as a 1-d array too. *)
Example load_single_row :
  fst (load_selected_file (select "row.txt" (loaded_session "spectrum.txt" []))) =
  Raise IndexError.
Proof. vm_compute. reflexivity. Qed.

(** C2: with two selected points of different x, [remove_background]
    replaces every [y[i]] by [y[i] - (slope * x[i] + intercept)], where
    [slope = (y2 - y1) / (x2 - x1)] and [intercept = y1 - slope * x1] are
    taken from the points ordered by x; every sample of the domain is
    changed, the x sequence is kept, and a second call with the same points
    subtracts the same line once more, so the operation is not idempotent
    (second conjunct: a session where the second call changes y again). *)
Theorem remove_background_subtracts_line :
  (forall (A : Type) (N : Num A) (w : world A) r rows p1 p2 rest,
     loaded_at w r rows ->
     wait_variable 2 [] (events w) = Some ([p1; p2], rest) ->
     fst p1 <> fst p2 ->
     let x := column 0 rows in
     let y := column 1 rows in
     let slope := slope_of p1 p2 in
     let intercept := intercept_of p1 p2 in
     exists w',
       remove_background w = (Ret tt, w') /\
       dataset w = Some (x, y) /\
       dataset w' = Some (x, subtract_line slope intercept x y) /\
       length (subtract_line slope intercept x y) = length y /\
       (forall i, i < length y ->
          nth i (subtract_line slope intercept x y) zero =
          sub (nth i y zero) (add (mul slope (nth i x zero)) intercept)) /\
       (forall rest',
          wait_variable 2 [] rest = Some ([p1; p2], rest') ->
          exists w'',
            remove_background w' = (Ret tt, w'') /\
            dataset w'' =
              Some (x, subtract_line slope intercept x
                         (subtract_line slope intercept x y)))) /\
  (exists (w : world Qc) r rows p1 p2 rest rest',
     loaded_at w r rows /\
     wait_variable 2 [] (events w) = Some ([p1; p2], rest) /\
     wait_variable 2 [] rest = Some ([p1; p2], rest') /\
     fst p1 <> fst p2 /\
     dataset (snd (remove_background (snd (remove_background w)))) <>
     dataset (snd (remove_background w))).
Proof.
  split.
  - intros A N w r rows p1 p2 rest Hl Hw _ x y slope intercept.
    assert (Hxy : length x = length y) by (unfold x, y, column; now rewrite !length_map).
    destruct (remove_background_once Hl Hw) as (w' & rows' & Hrun & Hl' & Hev & Hx' & Hy').
    exists w'. split; [assumption|].
    split; [exact (loaded_at_dataset Hl)|].
    split; [rewrite (loaded_at_dataset Hl'), Hx', Hy'; reflexivity|].
    split; [now apply length_subtract_line|].
    split; [intros i Hi; now apply nth_subtract_line|].
    intros rest' Hw'. rewrite <- Hev in Hw'.
    destruct (remove_background_once Hl' Hw') as (w'' & rows'' & Hrun' & Hl'' & _ & Hx'' & Hy'').
    exists w''. split; [assumption|].
    rewrite (loaded_at_dataset Hl''), Hx'', Hy'', Hx', Hy'. reflexivity.
  - exists (loaded_session "spectrum.txt" [click 0 1; click 4 5; click 0 1; click 4 5]),
      0, spectrum_rows, (qz 0, qz 1), (qz 4, qz 5), [click 0 1; click 4 5], [].
    split; [apply spectrum_session_loaded|].
    split; [reflexivity|]. split; [reflexivity|].
    split.
    + intros E. apply (f_equal this) in E. vm_compute in E. discriminate.
    + intros E.
      apply (f_equal (option_map (fun d => map this (snd d)))) in E.
      vm_compute in E. discriminate.
Qed.

(** C2 on the spectrum, with the clicks (4, 5) and (0, 1) arriving out of
    x-order. *)
Lemma remove_background_subtracts_line_witness :
  exists w',
    remove_background (loaded_session "spectrum.txt" [click 4 5; click 0 1]) = (Ret tt, w') /\
    dataset (loaded_session "spectrum.txt" [click 4 5; click 0 1]) =
      Some (column 0 spectrum_rows, column 1 spectrum_rows) /\
    dataset w' =
      Some (column 0 spectrum_rows,
            subtract_line (slope_of (qz 4, qz 5) (qz 0, qz 1))
              (intercept_of (qz 4, qz 5) (qz 0, qz 1))
              (column 0 spectrum_rows) (column 1 spectrum_rows)).
Proof.
  destruct (proj1 remove_background_subtracts_line Qc Qc_Num
              (loaded_session "spectrum.txt" [click 4 5; click 0 1])
              0 spectrum_rows (qz 4, qz 5) (qz 0, qz 1) [])
    as (w' & Hrun & Hd & Hd' & _).
  - apply spectrum_session_loaded.
  - reflexivity.
  - intros E. apply (f_equal this) in E. vm_compute in E. discriminate.
  - exists w'. auto.
Defined.


(** On these nine trapezoids the order of the additions shows: added from
    left to right they give 2.6999999999999997, one unit in the last place
    below what [ndarray.sum] returns. *)
Example np_sum_order_binary64 :
  let terms := trapezoid_terms (column 0 tenth_rows) (column 1 tenth_rows) 0 10 in
  length terms = 9 /\
  fold_left add terms zero = 0x1.5999999999999p+1%float /\
  np_sum terms = 0x1.599999999999ap+1%float.
Proof. vm_compute. repeat split. Qed.

(** C5 with both clicks at x = 1: the two bounds snap to the same sample. *)
Lemma calculate_intensities_invalid_range_witness :
  exists w',
    calculate_intensities (loaded_session "spectrum.txt" [click 1 0; click 1 2]) =
      (Ret tt, w') /\
    dialogs w' =
      dialogs (loaded_session "spectrum.txt" [click 1 0; click 1 2]) ++
      [showinfo_instructions 2; showerror "Error" "Invalid range selected."] /\
    results_text w' = [] /\
    dataset w' = Some (column 0 spectrum_rows, column 1 spectrum_rows).
Proof.
  apply (@calculate_intensities_invalid_range Qc Qc_Num
           (loaded_session "spectrum.txt" [click 1 0; click 1 2])
           (column 0 spectrum_rows) (column 1 spectrum_rows)
           (qz 1, qz 0) (qz 1, qz 2) [] (qz 1) (qz 1) 1 1);
    reflexivity || lia.
Defined.

(** C4 on the flat signal [y = 2] over [x = 0,1,3,6] with clicks at 0 and 6:
    the window is the samples 0, 1, 2 and the area is [2 * (3 - 0)]. *)
Lemma calculate_intensities_flat_witness :
  exists w',
    calculate_intensities (loaded_session "flat.txt" [click 0 0; click 6 0]) = (Ret tt, w') /\
    results_text w' =
      [{| log_lower := qz 0; log_upper := qz 6;
          log_area := mul (qz 2) (sub (qz 3) (qz 0)) |}].
Proof.
  eexists. split.
  - apply (@calculate_intensities_flat
             (loaded_session "flat.txt" [click 0 0; click 6 0])
             (column 0 flat_rows) (column 1 flat_rows)
             (qz 0, qz 0) (qz 6, qz 0) [] (qz 0) (qz 6) 0 3 (qz 2));
      try reflexivity.
    + lia.
    + intros i Hi.
      destruct i as [|[|[|i]]]; try reflexivity. lia.
  - reflexivity.
Defined.

(** C6 on the scenario clicks: the click outside the axes is skipped and
    the fourth click stays pending. *)
Lemma get_user_points_collects_witness :
  0 < 2 /\
  2 <= length (valid_clicks scenario_clicks) /\
  exists consumed e rest,
    scenario_clicks = consumed ++ e :: rest /\
    valid_clicks consumed = firstn (2 - 1) (valid_clicks scenario_clicks) /\
    valid_clicks (consumed ++ [e]) = firstn 2 (valid_clicks scenario_clicks) /\
    length (firstn 2 (valid_clicks scenario_clicks)) = 2 /\
    get_user_points 2 (loaded_session "spectrum.txt" scenario_clicks) =
      (Ret (firstn 2 (valid_clicks scenario_clicks)),
       after_clicks 2 rest (loaded_session "spectrum.txt" scenario_clicks)).
Proof.
  split; [lia|]. split; [simpl; lia|].
  apply (proj1 (@get_user_points_collects Qc 2
                  (loaded_session "spectrum.txt" scenario_clicks) ltac:(lia))).
  simpl. lia.
Defined.

(** C8 on the spectrum: the invariant after the load and after a
    background removal. *)
Lemma dataset_lengths_invariant_witness :
  dataset_ok (loaded_session "spectrum.txt" scenario_clicks) /\
  dataset_ok (snd (remove_background (loaded_session "spectrum.txt" scenario_clicks))).
Proof.
  assert (Hok : dataset_ok (loaded_session "spectrum.txt" scenario_clicks)).
  { apply (proj1 (@dataset_lengths_invariant Qc Qc_Num)
             (fresh_session demo_files "spectrum.txt" scenario_clicks) (Ret tt)).
    - unfold loaded_session.
      destruct (load_selected_file (fresh_session demo_files "spectrum.txt" scenario_clicks))
        as [o w'] eqn:E.
      apply (f_equal fst) in E. vm_compute in E. subst o. reflexivity.
    - reflexivity. }
  split; [exact Hok|].
  exact (proj1 (proj2 (proj2 (@dataset_lengths_invariant Qc Qc_Num))) _ Hok).
Defined.

(** C9 on the spectrum: the binding energies after a background removal. *)
Lemma remove_background_keeps_x_witness :
  option_map fst (dataset (snd (remove_background
    (loaded_session "spectrum.txt" scenario_clicks)))) = Some (column 0 spectrum_rows).
Proof.
  destruct (remove_background (loaded_session "spectrum.txt" scenario_clicks))
    as [o w'] eqn:E.
  exact (proj1 (proj2 (remove_background_keeps_x
           (spectrum_session_loaded scenario_clicks) E))).
Defined.

(** A load that does not report success leaves the loaded dataset alone. *)
Lemma load_failure_keeps_dataset {A : Type} `{Num A} (w : world A) r rows o w' :
  loaded_at w r rows ->
  load_selected_file w = (o, w') ->
  (forall msg, dialogs w' <> dialogs w ++ [showinfo "Success" msg]) ->
  dataset w' = dataset w /\
  (dialogs w' = dialogs w \/ exists msg, dialogs w' = dialogs w ++ [showerror "Error" msg]).
Proof.
  intros Hl Hrun Hno.
  destruct (load_selected_file_cases _ Hrun) as [(_ & rows' & Hrep) | Href].
  - destruct Hrep as (_ & _ & _ & Hd). now apply Hno in Hd.
  - split; [eapply load_refused_keeps_dataset; eassumption|apply Href].
Qed.

(** C7: a file with a single numeric column.  [np.loadtxt] returns a 1-d
    array, [data[:, 0]] raises IndexError, and neither [except] clause
    catches it: the call ends with the exception, no "Invalid data format"
    message is shown, and the dataset loaded before is unchanged. *)
Theorem load_one_column_uncaught :
  fst (load_selected_file (select "column.txt" (loaded_session "spectrum.txt" []))) =
    Raise IndexError /\
  dialogs (snd (load_selected_file (select "column.txt" (loaded_session "spectrum.txt" [])))) =
    dialogs (loaded_session "spectrum.txt" []) /\
  dataset (snd (load_selected_file (select "column.txt" (loaded_session "spectrum.txt" [])))) =
    dataset (loaded_session "spectrum.txt" []).
Proof. repeat split; vm_compute; reflexivity. Qed.

(** C3: two selected points with the same x.  Nothing guards the division
    by [x2 - x1]: [remove_background] returns normally, the only message
    shown is the instruction to click, and every y becomes NaN. *)
Theorem remove_background_equal_x_unguarded :
  fst (remove_background (float_session vertical_clicks)) = Ret tt /\
  dialogs (snd (remove_background (float_session vertical_clicks))) =
    dialogs (float_session vertical_clicks) ++ [showinfo_instructions 2] /\
  option_map snd (dataset (snd (remove_background (float_session vertical_clicks)))) =
    Some [nan; nan; nan; nan]%float.
Proof. repeat split; vm_compute; reflexivity. Qed.

(** C4 fails bit for bit in binary64: the area of the flat signal [y = 3]
    over the window [x = 0, 0.1, 0.3] is not [3 * (x[2] - x[0])], since the
    two trapezoids are rounded one by one. *)
Lemma calculate_intensities_flat_float_differs :
  dataset (float_session window_clicks) =
    Some (column 0 float_rows, column 1 float_rows) /\
  np_argmin (np_abs (sub_scalar (column 0 float_rows) 0%float)) = Some 0 /\
  np_argmin (np_abs (sub_scalar (column 0 float_rows) 1%float)) = Some 3 /\
  (forall i, 0 <= i < 3 -> nth i (column 1 float_rows) zero = 3%float) /\
  exists area,
    results_text (snd (calculate_intensities (float_session window_clicks))) =
      [{| log_lower := 0%float; log_upper := 1%float; log_area := area |}] /\
    area <> mul 3%float (sub (nth (3 - 1) (column 0 float_rows) zero)
                              (nth 0 (column 0 float_rows) zero)).
Proof.
  split; [vm_compute; reflexivity|].
  split; [vm_compute; reflexivity|].
  split; [vm_compute; reflexivity|].
  split.
  - intros i Hi. destruct i as [|[|[|i]]]; try reflexivity. lia.
  - eexists. split; [vm_compute; reflexivity|].
    intros E.
    apply (f_equal (fun a => PrimFloat.ltb a 0x1.ccccccccccccdp-1%float)) in E.
    vm_compute in E. discriminate E.
Qed.

(** * Further properties of the session *)

(** ** Loading, case by case *)

Section LoadCases.
Context {A : Type} `{Num A}.

Local Arguments String.append : simpl never.

Lemma np_loadtxt_unreadable (w : world A) path :
  files w path = None -> np_loadtxt path w = (Raise IOError, w).
Proof.
  intros E. unfold np_loadtxt, orelse, bind, gets, raise. now rewrite E.
Qed.

Lemma np_loadtxt_malformed (w : world A) path text :
  files w path = Some text ->
  numbers_of text = None \/
  (exists rows, numbers_of text = Some rows /\ same_width rows = false) ->
  np_loadtxt path w = (Raise ValueError, w).
Proof.
  intros E Hbad. unfold np_loadtxt, orelse, bind, gets, raise, ret. rewrite E.
  unfold numbers_of in Hbad.
  destruct Hbad as [-> | (rows & -> & ->)]; reflexivity.
Qed.

Lemma np_loadtxt_numbers (w : world A) path text rows :
  files w path = Some text ->
  numbers_of text = Some rows ->
  same_width rows = true ->
  np_loadtxt path w =
  (Ret (length (heap w)), set_heap (heap w ++ [squeeze rows]) w).
Proof.
  intros E Hn Hw. unfold np_loadtxt, orelse, bind, gets, raise, ret, modify.
  rewrite E. unfold numbers_of in Hn. now rewrite Hn, Hw.
Qed.

(** Unfold the call up to [np.loadtxt], for a selected and listed entry. *)
Ltac enter_load Hsel Hpath :=
  unfold load_selected_file, bind at 1, gets at 1;
  unfold selection_made in Hsel; rewrite Hsel;
  unfold bind at 1, gets at 1, bind at 1, orelse at 1;
  unfold selected_path in Hpath; rewrite Hpath;
  unfold ret at 1, try_except, bind at 1.

(** X1: when the selected entry is listed but its file cannot be opened,
    [load_selected_file] returns after showing "Failed to load <name>: File
    not found." and changes nothing else. *)
Theorem load_unreadable_file (w : world A) path :
  selection_made w ->
  selected_path w = Some path ->
  files w path = None ->
  load_selected_file w =
  (Ret tt,
   set_dialogs (dialogs w ++
     [showerror "Error"
        ("Failed to load " ++ selected_file w ++ ": File not found.")%string]) w).
Proof.
  intros Hsel Hpath Hf. enter_load Hsel Hpath.
  now rewrite (np_loadtxt_unreadable _ _ Hf).
Qed.

(** X2: when the selected file holds a token that is not a number, or
    lines of different widths, [load_selected_file] returns after showing
    "Failed to load <name>: Invalid data format." and changes nothing else. *)
Theorem load_malformed_file (w : world A) path text :
  selection_made w ->
  selected_path w = Some path ->
  files w path = Some text ->
  numbers_of text = None \/
  (exists rows, numbers_of text = Some rows /\ same_width rows = false) ->
  load_selected_file w =
  (Ret tt,
   set_dialogs (dialogs w ++
     [showerror "Error"
        ("Failed to load " ++ selected_file w ++ ": Invalid data format.")%string]) w).
Proof.
  intros Hsel Hpath Hf Hbad. enter_load Hsel Hpath.
  now rewrite (np_loadtxt_malformed _ _ Hf Hbad).
Qed.

(** X3: when the selected file holds numbers in fewer than two lines or
    fewer than two columns (an empty file included), [data[:, 0]] raises
    IndexError, which no handler catches: the call ends with the exception,
    shows no message and leaves every attribute as it was (the array just
    read stays on the heap, unreferenced). *)
Theorem load_too_small (w : world A) path text rows :
  selection_made w ->
  selected_path w = Some path ->
  files w path = Some text ->
  numbers_of text = Some rows ->
  same_width rows = true ->
  length rows <= 1 \/ length (hd [] rows) <= 1 ->
  load_selected_file w =
  (Raise IndexError, set_heap (heap w ++ [squeeze rows]) w).
Proof.
  intros Hsel Hpath Hf Hn Hw Hsmall. enter_load Hsel Hpath.
  rewrite (np_loadtxt_numbers _ _ Hf Hn Hw).
  unfold index_col, bind, gets, modify, ret, raise, messagebox. simpl.
  rewrite nth_error_app2, Nat.sub_diag by lia. simpl.
  destruct (squeeze rows) as [?|?|rows'] eqn:Hsq; try reflexivity.
  destruct (squeeze_2d _ Hsq) as [(-> & Hr & Hc) | (-> & Hc)].
  - lia.
  - rewrite Hc. reflexivity.
Qed.

(** X4: when the selected file holds at least two lines of equally many
    numbers, at least two per line, the load succeeds: x is the first column
    and y the second (further columns are ignored), "Loaded <name>
    successfully!" is shown, and the drawn curve, the results log and the
    pending clicks are as before. *)
Theorem load_table (w : world A) path text rows :
  selection_made w ->
  selected_path w = Some path ->
  files w path = Some text ->
  numbers_of text = Some rows ->
  same_width rows = true ->
  2 <= length rows ->
  2 <= length (hd [] rows) ->
  exists w',
    load_selected_file w = (Ret tt, w') /\
    dataset w' = Some (column 0 rows, column 1 rows) /\
    loaded_at w' (length (heap w)) rows /\
    dialogs w' = dialogs w ++
      [showinfo "Success" ("Loaded " ++ selected_file w ++ " successfully!")%string] /\
    drawn w' = drawn w /\
    results_text w' = results_text w /\
    events w' = events w.
Proof.
  intros Hsel Hpath Hf Hn Hw Hr Hc. enter_load Hsel Hpath.
  rewrite (np_loadtxt_numbers _ _ Hf Hn Hw).
  assert (Hsq : squeeze rows = Arr2 rows).
  { destruct rows as [|r [|r' rs]]; simpl in *; try lia.
    destruct r as [|a [|b l]]; simpl in *; try lia. reflexivity. }
  unfold index_col, bind, gets, modify, ret, raise, messagebox. simpl.
  rewrite nth_error_app2, Nat.sub_diag by lia. simpl. rewrite Hsq.
  replace (0 <? length (hd [] rows)) with true by (symmetry; apply Nat.ltb_lt; lia).
  simpl. rewrite ?nth_error_app2, ?Nat.sub_diag by lia. simpl. rewrite ?Hsq.
  replace (1 <? length (hd [] rows)) with true by (symmetry; apply Nat.ltb_lt; lia).
  simpl. eexists. split; [reflexivity|].
  assert (Hl : loaded_at
    (set_dialogs (dialogs w ++ [showinfo "Success"
        ("Loaded " ++ selected_file w ++ " successfully!")%string])
      (set_data (Some ({| base := length (heap w); col := 0 |},
                       {| base := length (heap w); col := 1 |}))
        (set_sum_intensities (Some {| base := length (heap w); col := 1 |})
          (set_binding_energies (Some {| base := length (heap w); col := 0 |})
            (set_heap (heap w ++ [Arr2 rows]) w)))))
    (length (heap w)) rows).
  { unfold loaded_at. simpl. repeat split; auto.
    - now rewrite nth_error_app2, Nat.sub_diag by lia.
    - now apply same_width_widths. }
  split; [exact (loaded_at_dataset Hl)|].
  split; [exact Hl|]. simpl. auto.
Qed.

(** X5: when the selected entry is the base name of no listed path,
    [next] finds nothing: the call ends with StopIteration and changes
    nothing. *)
Theorem load_unlisted_entry (w : world A) :
  selection_made w ->
  selected_path w = None ->
  load_selected_file w = (Raise StopIteration, w).
Proof.
  intros Hsel Hpath.
  unfold load_selected_file, bind at 1, gets at 1.
  unfold selection_made in Hsel. rewrite Hsel.
  unfold bind at 1, gets at 1, bind at 1, orelse at 1.
  unfold selected_path in Hpath. rewrite Hpath. reflexivity.
Qed.

End LoadCases.

(** ** More on collecting clicks *)

Section MoreClicks.
Context {A : Type} `{Num A}.

Lemma valid_clicks_app (a b : list (MouseEvent A)) :
  valid_clicks (a ++ b) = valid_clicks a ++ valid_clicks b.
Proof.
  induction a as [|e a IH]; simpl; [reflexivity|].
  destruct (xdata e), (ydata e); simpl; now rewrite ?IH.
Qed.

(** Once the accumulator is as long as the target, the target length is
    never met again. *)
Lemma wait_variable_overshoot (evs : list (MouseEvent A)) :
  forall (acc : list (A * A)) (n : nat),
    n <= length acc -> wait_variable n acc evs = None.
Proof.
  induction evs as [|e evs IH]; intros acc n Hn; simpl; [reflexivity|].
  unfold onclick.
  destruct (xdata e) as [x|], (ydata e) as [y|]; try (now apply IH).
  rewrite length_app. simpl.
  replace (length acc + 1 =? n) with false by (symmetry; apply Nat.eqb_neq; lia).
  apply IH. rewrite length_app. simpl. lia.
Qed.

(** X11: [get_user_points 0] never returns: the handler compares the
    length only after appending a point, so the length 0 is never met; all
    pending clicks are used up and the arrays are untouched. *)
Theorem get_user_points_zero (w : world A) :
  fst (get_user_points 0 w) = Blocked /\
  events (snd (get_user_points 0 w)) = [] /\
  same_arrays w (snd (get_user_points 0 w)).
Proof.
  unfold get_user_points, bind, modify, messagebox, gets, ret, block. simpl.
  rewrite wait_variable_overshoot by (simpl; lia). simpl.
  unfold same_arrays. simpl. auto 10.
Qed.

(** The clicks left pending by a collection are the valid clicks not yet
    returned, with the invalid ones in between. *)
Lemma get_user_points_rest (n : nat) (w : world A) :
  0 < n ->
  n <= length (valid_clicks (events w)) ->
  exists rest,
    get_user_points n w = (Ret (firstn n (valid_clicks (events w))), after_clicks n rest w) /\
    valid_clicks rest = skipn n (valid_clicks (events w)).
Proof.
  intros Hn Hlen. destruct n as [|k]; [lia|].
  destruct (@wait_variable_collects A k (events w) [] (S k))
    as (c & e & r & Hev & _ & Hc & Hw); [reflexivity|assumption|].
  exists r. split; [now apply get_user_points_ret|].
  pose proof (firstn_skipn (S k) (valid_clicks (events w))) as Hsplit.
  rewrite Hev in Hsplit at 3.
  replace (c ++ e :: r) with ((c ++ [e]) ++ r) in Hsplit by (now rewrite <- app_assoc).
  rewrite valid_clicks_app, Hc in Hsplit.
  now apply app_inv_head in Hsplit.
Qed.

(** X10: two collections in a row share the click stream without loss:
    with at least [n + m] valid clicks pending, the first call returns the
    first [n] valid clicks, the second the next [m], and the valid clicks
    after those stay pending. *)
Theorem get_user_points_twice (n m : nat) (w : world A) :
  0 < n -> 0 < m ->
  n + m <= length (valid_clicks (events w)) ->
  exists w1 w2,
    get_user_points n w = (Ret (firstn n (valid_clicks (events w))), w1) /\
    get_user_points m w1 =
      (Ret (firstn m (skipn n (valid_clicks (events w)))), w2) /\
    valid_clicks (events w2) = skipn (n + m) (valid_clicks (events w)).
Proof.
  intros Hn Hm Hlen.
  destruct (get_user_points_rest w Hn) as (r1 & Hrun1 & Hr1); [lia|].
  destruct (get_user_points_rest (after_clicks n r1 w) Hm) as (r2 & Hrun2 & Hr2).
  { simpl. rewrite Hr1, length_skipn. lia. }
  simpl in Hrun2, Hr2. rewrite Hr1 in Hrun2, Hr2.
  eexists. eexists. split; [exact Hrun1|]. split; [exact Hrun2|].
  simpl. rewrite Hr2, skipn_skipn. f_equal. lia.
Qed.

End MoreClicks.

(** ** More on integration *)

Section MoreIntegration.
Context {A : Type} `{Num A}.

Local Arguments sorted : simpl never.
Local Arguments np_argmin : simpl never.
Local Arguments np_trapz : simpl never.
Local Arguments slice : simpl never.
Local Arguments view_read : simpl never.

(** X15: when the two bounds snap to neighbouring samples
    ([end_idx = start_idx + 1]) the window holds a single sample and the
    reported and logged area is [0.0], not the trapezoid between the two
    samples. *)
Theorem calculate_intensities_neighbours
    (w : world A) (x y : list A) p1 p2 rest lo hi start_idx :
  dataset w = Some (x, y) ->
  length x = length y ->
  wait_variable 2 [] (events w) = Some ([p1; p2], rest) ->
  sorted [fst p1; fst p2] = [lo; hi] ->
  np_argmin (np_abs (sub_scalar x lo)) = Some start_idx ->
  np_argmin (np_abs (sub_scalar x hi)) = Some (S start_idx) ->
  calculate_intensities w =
  (Ret tt,
   set_results_text
     (results_text w ++ [{| log_lower := lo; log_upper := hi; log_area := zero |}])
     (set_dialogs
        (dialogs (after_clicks 2 rest w) ++ [showinfo_intensity zero])
        (after_clicks 2 rest w))).
Proof.
  intros Hd Hlen Hw Hs Hlo Hhi.
  rewrite (calculate_intensities_run _ Hd Hw Hs Hlo Hhi).
  replace (S start_idx <=? start_idx) with false by (symmetry; apply Nat.leb_gt; lia).
  pose proof (np_argmin_bound _ Hhi) as He.
  unfold np_abs, sub_scalar in He. rewrite !length_map in He.
  rewrite np_trapz_window by (assumption || lia).
  replace (S start_idx - 1 - start_idx) with 0 by lia.
  reflexivity.
Qed.

(** Two numbers, equal or one below the other, sort to the same list in
    either order. *)
Lemma sorted_pair_comm (a b : A) :
  a = b \/ one_below a b -> sorted [a; b] = sorted [b; a].
Proof.
  intros [-> | Hab]; [reflexivity|].
  unfold one_below in Hab. unfold sorted. simpl. rewrite Hab.
  destruct (ltb b a); reflexivity.
Qed.

(** After the clicks, the call depends on the points only through their
    number and their sorted x-coordinates. *)
Lemma calculate_intensities_sorted_points :
  exists K : bool -> list A -> M A unit,
    forall (w : world A) d pts rest,
      data w = Some d ->
      wait_variable 2 [] (events w) = Some (pts, rest) ->
      calculate_intensities w =
      K (length pts <? 2) (sorted (map fst pts)) (after_clicks 2 rest w).
Proof.
  eexists. intros w d pts rest Hd Hw.
  unfold calculate_intensities, bind at 1, gets at 1. rewrite Hd.
  unfold bind at 1. rewrite (get_user_points_ret _ _ Hw).
  set (few := length pts <? 2). set (xs := sorted (map fst pts)).
  set (w1 := after_clicks 2 rest w). clearbody few xs w1.
  pattern few, xs, w1. reflexivity.
Qed.

(** X16: with a dataset loaded and two clicks whose x-coordinates are the
    same value or two numbers of which one is below the other (so neither
    is NaN, and they are not [0.0] and [-0.0]), [calculate_intensities]
    does the same whichever of the two clicks comes first. *)
Theorem calculate_intensities_click_order
    (w : world A) (d : view * view) (x1 y1 x2 y2 : A) rest :
  data w = Some d ->
  x1 = x2 \/ one_below x1 x2 ->
  calculate_intensities
    (set_events ({| xdata := Some x1; ydata := Some y1 |} ::
                 {| xdata := Some x2; ydata := Some y2 |} :: rest) w) =
  calculate_intensities
    (set_events ({| xdata := Some x2; ydata := Some y2 |} ::
                 {| xdata := Some x1; ydata := Some y1 |} :: rest) w).
Proof.
  intros Hd Hx. destruct calculate_intensities_sorted_points as [K HK].
  rewrite (HK _ d [(x1, y1); (x2, y2)] rest) by (assumption || reflexivity).
  rewrite (HK _ d [(x2, y2); (x1, y1)] rest) by (assumption || reflexivity).
  cbn [length map fst]. rewrite (sorted_pair_comm Hx). reflexivity.
Qed.

End MoreIntegration.

(** ** More on background removal *)

Section MoreBackground.
Context {A : Type} `{Num A}.

Lemma ordered_points_comm (p1 p2 : A * A) :
  one_below (fst p1) (fst p2) -> ordered_points p1 p2 = ordered_points p2 p1.
Proof.
  unfold one_below, ordered_points, gtb. intros ->.
  destruct (ltb (fst p2) (fst p1)); reflexivity.
Qed.

(** X18: with a dataset loaded and two clicks of which one has its x below
    the other's (two different numbers: neither is NaN, and they are not
    [0.0] and [-0.0]), [remove_background] does the same whichever of the
    two clicks comes first. *)
Theorem remove_background_click_order
    (w : world A) r rows (x1 y1 x2 y2 : A) rest :
  loaded_at w r rows ->
  one_below x1 x2 ->
  remove_background
    (set_events ({| xdata := Some x1; ydata := Some y1 |} ::
                 {| xdata := Some x2; ydata := Some y2 |} :: rest) w) =
  remove_background
    (set_events ({| xdata := Some x2; ydata := Some y2 |} ::
                 {| xdata := Some x1; ydata := Some y1 |} :: rest) w).
Proof.
  intros Hl Hne.
  rewrite (@remove_background_run A _ _ r rows (x1, y1) (x2, y2) rest)
    by (exact Hl || reflexivity).
  rewrite (@remove_background_run A _ _ r rows (x2, y2) (x1, y1) rest)
    by (exact Hl || reflexivity).
  unfold background_removed, intercept_of, slope_of.
  rewrite (ordered_points_comm (x1, y1) (x2, y2)) by exact Hne.
  reflexivity.
Qed.

(** X19: when [remove_background] has its two points on a loaded dataset,
    it returns with the canvas redrawn from the new arrays (the drawn curve
    is the dataset), having shown only the instruction to click and left
    the results log alone. *)
Theorem remove_background_redraws (w : world A) r rows p1 p2 rest :
  loaded_at w r rows ->
  wait_variable 2 [] (events w) = Some ([p1; p2], rest) ->
  exists w',
    remove_background w = (Ret tt, w') /\
    drawn w' = dataset w' /\
    dialogs w' = dialogs w ++ [showinfo_instructions 2] /\
    results_text w' = results_text w.
Proof.
  intros Hl Hw.
  exists (background_removed p1 p2 r rows (after_clicks 2 rest w)).
  split; [now apply remove_background_run|].
  pose proof (background_removed_loaded p1 p2 (after_clicks_loaded 2 rest Hl)) as Hl'.
  rewrite (loaded_at_dataset Hl').
  destruct Hl as (_ & _ & _ & _ & Hr).
  rewrite column_set_column_other by lia.
  rewrite column_set_column_same.
  - repeat split; reflexivity.
  - rewrite length_subtract_line; unfold column; now rewrite !length_map.
  - eapply Forall_impl; [|exact Hr]. simpl. intros; lia.
Qed.

End MoreBackground.

Section ExactBackground.
Local Open Scope Qc_scope.

Lemma Qcminus_eq_zero (a b : Qc) : a - b = 0 -> a = b.
Proof.
  intros E. apply (f_equal (fun v => v + b)) in E. ring_simplify in E. exact E.
Qed.

(** The subtracted line passes through both clicked points. *)
Lemma line_through_points (p1 p2 : Qc * Qc) :
  fst p1 <> fst p2 ->
  slope_of p1 p2 * fst p1 + intercept_of p1 p2 = snd p1 /\
  slope_of p1 p2 * fst p2 + intercept_of p1 p2 = snd p2.
Proof.
  intros Hne. unfold intercept_of, slope_of, ordered_points.
  destruct p1 as [x1 y1], p2 as [x2 y2]. simpl in Hne. cbn [fst snd].
  destruct (gtb x1 x2); cbn [fst snd add sub mul div Qc_Num];
    split; field; intros E; apply Hne;
    solve [now apply Qcminus_eq_zero | symmetry; now apply Qcminus_eq_zero].
Qed.

(** X20 (exact arithmetic): a sample that one of the two clicked points
    lies on (same x and same y) has y = 0 after the background removal, the
    two clicks having different x. *)
Theorem remove_background_zeroes_anchors (w : world Qc) r rows p1 p2 rest (i : nat) :
  loaded_at w r rows ->
  wait_variable 2 [] (events w) = Some ([p1; p2], rest) ->
  fst p1 <> fst p2 ->
  (i < length rows)%nat ->
  (nth i (column 0 rows) zero, nth i (column 1 rows) zero) = p1 \/
  (nth i (column 0 rows) zero, nth i (column 1 rows) zero) = p2 ->
  exists w' y',
    remove_background w = (Ret tt, w') /\
    dataset w' = Some (column 0 rows, y') /\
    nth i y' zero = zero.
Proof.
  intros Hl Hw Hne Hi Hon.
  destruct (remove_background_once Hl Hw) as (w' & rows' & Hrun & Hl' & _ & Hx' & Hy').
  exists w', (column 1 rows'). split; [exact Hrun|].
  split; [rewrite (loaded_at_dataset Hl'), Hx'; reflexivity|].
  assert (Hlen : length (column 0 rows) = length (column 1 rows))
    by (unfold column; now rewrite !length_map).
  rewrite Hy', nth_subtract_line
    by (assumption || (unfold column; rewrite length_map; exact Hi)).
  destruct (line_through_points p1 p2 Hne) as [L1 L2].
  cbn [add sub mul zero Qc_Num] in *. change (Q2Qc 0) with (0 : Qc) in *.
  destruct Hon as [<- | <-]; cbn [fst snd] in L1, L2.
  - rewrite L1. ring.
  - rewrite L2. ring.
Qed.

(** X21 (exact arithmetic): two clicks of different x at the same height
    [c] subtract the constant [c] from every y. *)
Theorem remove_background_level (w : world Qc) r rows p1 p2 rest (c : Qc) :
  loaded_at w r rows ->
  wait_variable 2 [] (events w) = Some ([p1; p2], rest) ->
  fst p1 <> fst p2 ->
  snd p1 = c -> snd p2 = c ->
  exists w',
    remove_background w = (Ret tt, w') /\
    dataset w' = Some (column 0 rows, map (fun v => sub v c) (column 1 rows)).
Proof.
  intros Hl Hw Hne H1 H2.
  destruct (remove_background_once Hl Hw) as (w' & rows' & Hrun & Hl' & _ & Hx' & Hy').
  exists w'. split; [exact Hrun|].
  rewrite (loaded_at_dataset Hl'), Hx', Hy'. f_equal. f_equal.
  assert (Hs : slope_of p1 p2 = 0 /\ intercept_of p1 p2 = c).
  { unfold intercept_of, slope_of, ordered_points.
    destruct p1 as [x1 y1], p2 as [x2 y2]. cbn [fst snd] in *. subst y1 y2.
    destruct (gtb x1 x2); cbn [fst snd add sub mul div Qc_Num]; split;
      unfold Qcdiv; ring. }
  destruct Hs as [-> ->]. unfold subtract_line, column. rewrite combine_map_same, !map_map.
  apply map_ext. intros row. cbn [fst snd add sub mul Qc_Num]. ring.
Qed.

(** X17 (exact arithmetic): a bound that equals the x of some sample snaps
    to the first sample with that x. *)
Theorem np_argmin_on_sample (x : list Qc) (target : Qc) (s : nat) :
  In target x ->
  np_argmin (np_abs (sub_scalar x target)) = Some s ->
  (s < length x)%nat /\
  nth s x zero = target /\
  forall j, (j < s)%nat -> nth j x zero <> target.
Proof.
  intros Hin Hs.
  destruct (np_argmin_first_min _ Hs) as (Hlt & Hall & Hfirst).
  unfold np_abs, sub_scalar in Hlt. rewrite !length_map in Hlt.
  assert (Hd : forall k, (k < length x)%nat ->
            nth k (np_abs (sub_scalar x target)) zero = Qcabs (nth k x zero - target)).
  { intros k Hk. unfold np_abs, sub_scalar. rewrite map_map.
    rewrite (nth_indep _ zero (absv (sub zero target)))
      by (rewrite length_map; exact Hk).
    now rewrite (map_nth (fun v => absv (sub v target))). }
  assert (Hzero : nth s (np_abs (sub_scalar x target)) zero = 0).
  { apply Qcle_antisym; [|rewrite Hd by assumption; apply Qcabs_nonneg].
    rewrite Forall_forall in Hall.
    specialize (Hall (Qcabs (target - target))).
    assert (Hmem : In (Qcabs (target - target)) (np_abs (sub_scalar x target))).
    { unfold np_abs, sub_scalar. rewrite map_map.
      apply (in_map (fun v => absv (sub v target))) in Hin. exact Hin. }
    specialize (Hall Hmem). cbn [geb Qc_Num] in Hall.
    apply Qle_bool_iff in Hall.
    replace (target - target) with (0 : Qc) in Hall by ring.
    exact Hall. }
  split; [exact Hlt|]. split.
  - rewrite Hd in Hzero by assumption. apply Qcabs_null in Hzero.
    apply (f_equal (fun v => v + target)) in Hzero. ring_simplify in Hzero. exact Hzero.
  - intros j Hj Heq.
    rewrite Forall_forall in Hfirst.
    specialize (Hfirst (nth j (np_abs (sub_scalar x target)) zero)).
    assert (Hmem : In (nth j (np_abs (sub_scalar x target)) zero)
                      (firstn s (np_abs (sub_scalar x target)))).
    { replace (nth j (np_abs (sub_scalar x target)) zero)
        with (nth j (firstn s (np_abs (sub_scalar x target))) zero)
        by (rewrite nth_firstn; now apply Nat.ltb_lt in Hj as ->).
      apply nth_In. rewrite length_firstn. unfold np_abs, sub_scalar.
      rewrite !length_map. lia. }
    specialize (Hfirst Hmem). rewrite Hzero, Hd, Heq in Hfirst by lia.
    replace (target - target) with (0 : Qc) in Hfirst by ring.
    cbn [geb Qc_Num] in Hfirst. discriminate Hfirst.
Qed.

End ExactBackground.

(** ** Plotting, and what the operations leave alone *)

Section Plot.
Context {A : Type} `{Num A}.

Local Arguments view_read : simpl never.
Local Arguments String.append : simpl never.

(** X12: on a dataset, [plot_data] draws exactly the current x and y and
    changes nothing else; were the two of different lengths it would raise
    ValueError and draw nothing. *)
Theorem plot_data_draws (w : world A) (x y : list A) :
  dataset w = Some (x, y) ->
  plot_data w =
  if length x =? length y
  then (Ret tt, set_drawn (Some (x, y)) w)
  else (Raise ValueError, w).
Proof.
  intros Hd.
  destruct (dataset_some _ Hd) as (d & bx & sy & Ed & Ebx & Esy & Ex & Ey).
  unfold plot_data, read_attr, orelse, bind, gets, ret, raise, modify.
  rewrite Ed, Ebx. simpl. rewrite Esy. simpl. rewrite Ex, Ey.
  destruct (length x =? length y); reflexivity.
Qed.

(** X13: before any load ([data] is [None]), [plot_data],
    [remove_background] and [calculate_intensities] all return after
    showing "No data loaded. Please load data first."; no click is awaited
    or consumed and nothing else changes. *)
Theorem no_data_guard (w : world A) :
  data w = None ->
  let refused :=
    (Ret tt,
     set_dialogs (dialogs w ++
       [showerror "Error" "No data loaded. Please load data first."]) w) in
  plot_data w = refused /\
  remove_background w = refused /\
  calculate_intensities w = refused.
Proof.
  intros Hd refused. subst refused.
  unfold plot_data, remove_background, calculate_intensities, bind, gets, messagebox, modify.
  rewrite Hd. auto.
Qed.

Lemma load_selected_file_frame (w : world A) o w' :
  load_selected_file w = (o, w') ->
  drawn w' = drawn w /\ results_text w' = results_text w /\
  events w' = events w /\ file_paths w' = file_paths w /\
  selected_file w' = selected_file w /\ points_collected w' = points_collected w.
Proof.
  unfold load_selected_file, bind at 1, gets at 1.
  destruct ((selected_file w =? "")%string || (selected_file w =? "Select a file")%string).
  { intros [= <- <-]. repeat split. }
  unfold bind at 1, gets at 1, bind at 1, orelse at 1.
  destruct (find _ (file_paths w)) as [file_path|].
  2:{ intros [= <- <-]. repeat split. }
  unfold ret at 1, try_except, bind at 1.
  destruct (np_loadtxt file_path w) as [o1 w1] eqn:E1.
  destruct (np_loadtxt_spec _ _ E1) as [(-> & [-> | ->]) | (rows & Hsw & -> & ->)].
  1,2: unfold messagebox, modify; intros [= <- <-]; simpl; repeat split.
  unfold index_col, messagebox, bind, gets, modify, ret, raise. simpl.
  repeat match goal with
         | |- context [match ?t with _ => _ end] =>
             lazymatch t with
             | context [match _ with _ => _ end] => fail
             | _ => destruct t eqn:?
             end
         | |- _ => progress simpl
         end;
    intros [= <- <-]; simpl; repeat split.
Qed.

(** X6: however it ends, [load_selected_file] leaves the drawn curve (the
    canvas keeps showing the old curve until Plot Data), the results log,
    the pending clicks, the listed paths and the selection as they were. *)
Theorem load_selected_file_keeps_canvas (w : world A) :
  drawn (snd (load_selected_file w)) = drawn w /\
  results_text (snd (load_selected_file w)) = results_text w /\
  events (snd (load_selected_file w)) = events w /\
  file_paths (snd (load_selected_file w)) = file_paths w /\
  selected_file (snd (load_selected_file w)) = selected_file w.
Proof.
  destruct (load_selected_file w) as [o w'] eqn:E.
  destruct (load_selected_file_frame _ E) as (H1 & H2 & H3 & H4 & H5 & _).
  simpl. auto.
Qed.

(** X14: plotting, background removal and loading never write to the
    results log, and plotting and integration never touch the buffers on
    the heap, however they end. *)
Theorem results_log_writers (w : world A) :
  results_text (snd (plot_data w)) = results_text w /\
  results_text (snd (remove_background w)) = results_text w /\
  results_text (snd (load_selected_file w)) = results_text w /\
  heap (snd (plot_data w)) = heap w /\
  heap (snd (calculate_intensities w)) = heap w.
Proof.
  destruct (plot_data w) as [o1 w1] eqn:E1.
  destruct (remove_background w) as [o2 w2] eqn:E2.
  destruct (load_selected_file w) as [o3 w3] eqn:E3.
  destruct (calculate_intensities w) as [o4 w4] eqn:E4.
  destruct (plot_data_frame _ E1) as (P1 & _ & _ & _ & P5).
  destruct (remove_background_frame _ E2) as (_ & _ & _ & R4 & _).
  destruct (load_selected_file_frame _ E3) as (_ & L2 & _).
  destruct (calculate_intensities_frame _ E4) as [(C1 & _) _].
  simpl. auto.
Qed.

End Plot.

(** ** Choosing a folder *)

Section Folder.
Context {A : Type} `{Num A}.

Local Arguments String.append : simpl never.

Lemma basename_no_slash (f : string) : has_slash f = false -> basename f = f.
Proof.
  destruct f as [|c r]; [reflexivity|]. simpl. intros Hf.
  destruct (Ascii.eqb c "/"); [discriminate Hf|]. now rewrite Hf.
Qed.

Lemma has_slash_app (p f : string) :
  has_slash (p ++ f) = has_slash p || has_slash f.
Proof.
  induction p as [|c p IH]; simpl; [reflexivity|].
  change (String c p ++ f)%string with (String c (p ++ f)). simpl.
  destruct (Ascii.eqb c "/"); [reflexivity|exact IH].
Qed.

Lemma basename_after_slash (p f : string) :
  has_slash f = false -> basename (p ++ "/" ++ f) = f.
Proof.
  intros Hf. induction p as [|c p IH].
  - change ("" ++ "/" ++ f)%string with (String "/" f). simpl. now rewrite Hf.
  - change (String c p ++ "/" ++ f)%string with (String c (p ++ "/" ++ f)).
    simpl. rewrite has_slash_app. change ("/" ++ f)%string with (String "/" f).
    simpl. rewrite orb_true_r. exact IH.
Qed.

Lemma ends_with_slash (s : string) :
  ends_with "/" s = true -> exists p, s = (p ++ "/")%string.
Proof.
  induction s as [|c s IH]; [discriminate|].
  destruct s as [|c' s'].
  - unfold ends_with. simpl.
    destruct (Ascii.eqb_spec c "/") as [-> | E]; [|discriminate].
    intros _. exists ""%string. reflexivity.
  - intros E. destruct IH as [p Hp].
    + unfold ends_with in *. simpl in E |- *.
      rewrite Nat.sub_0_r in *. exact E.
    + exists (String c p). rewrite Hp. reflexivity.
Qed.

(** [basename(join(folder, f)) = f] for a name without a slash. *)
Lemma basename_path_join (folder f : string) :
  has_slash f = false -> basename (path_join folder f) = f.
Proof.
  intros Hf. unfold path_join.
  replace (starts_with_slash f) with false.
  2:{ destruct f as [|c r]; [reflexivity|]. simpl in *.
      destruct (Ascii.eqb c "/"); [discriminate|reflexivity]. }
  destruct (String.eqb_spec folder "") as [-> | Hne]; simpl.
  - now apply basename_no_slash.
  - destruct (ends_with "/" folder) eqn:E.
    + destruct (ends_with_slash _ E) as [p ->].
      replace ((p ++ "/") ++ f)%string with (p ++ "/" ++ f)%string.
      * now apply basename_after_slash.
      * clear. induction p as [|c p IH]; [reflexivity|].
        change (String c p ++ "/" ++ f)%string with (String c (p ++ "/" ++ f)).
        change ((String c p ++ "/") ++ f)%string with (String c ((p ++ "/") ++ f)).
        now rewrite IH.
    + now apply basename_after_slash.
Qed.

Lemma find_listed (folder v : string) (names : list string) :
  Forall (fun f => has_slash f = false) names ->
  In v names ->
  find (fun p => (basename p =? v)%string) (map (path_join folder) names) =
  Some (path_join folder v).
Proof.
  intros Hs Hin. induction Hs as [|n names Hn Hs IH]; [destruct Hin|].
  simpl. rewrite (@basename_path_join folder n Hn).
  destruct (String.eqb_spec n v) as [-> | Hne]; [reflexivity|].
  apply IH. destruct Hin; [congruence|assumption].
Qed.

Lemma basenames_listed (folder : string) (names : list string) :
  Forall (fun f => has_slash f = false) names ->
  map basename (map (path_join folder) names) = names.
Proof.
  intros Hs. induction Hs as [|n names Hn Hs IH]; [reflexivity|].
  simpl. now rewrite (@basename_path_join folder n Hn), IH.
Qed.

(** The shape of the state after a folder with text files was chosen. *)
Lemma load_data_listed (folder : string) (listdir : string -> list string) (g : gui A) :
  folder <> ""%string ->
  Forall (fun f => has_slash f = false) (listdir folder) ->
  filter (ends_with ".txt") (listdir folder) <> [] ->
  exists g',
    load_data folder listdir g = (Ret tt, g') /\
    session g' =
      set_dialogs (dialogs (session g) ++
          [showinfo "Success" "Files loaded successfully!"])
        (select "Select a file"
           (set_file_paths
              (map (path_join folder) (filter (ends_with ".txt") (listdir folder)))
              (session g))) /\
    selector_values g' = filter (ends_with ".txt") (listdir folder).
Proof.
  intros Hf Hs Hne. unfold load_data.
  destruct (String.eqb_spec folder "") as [E|_]; [contradiction|].
  set (names := filter (ends_with ".txt") (listdir folder)) in *.
  assert (Hs' : Forall (fun f => has_slash f = false) names).
  { apply Forall_forall. intros f Hin. rewrite Forall_forall in Hs.
    apply Hs. unfold names in Hin. now apply filter_In in Hin. }
  destruct (map (path_join folder) names) as [|p ps] eqn:Ep.
  { destruct names; [congruence|discriminate]. }
  eexists. split; [reflexivity|]. cbn [session selector_values].
  split; [reflexivity|].
  rewrite <- Ep. now apply basenames_listed.
Qed.

(** X7: [load_data] on a chosen folder that holds text files lists the
    joined paths of the names ending in ".txt", in directory order, offers
    exactly those names in the selector, resets the selection to "Select a
    file", shows "Files loaded successfully!" and keeps the dataset; a
    [load_selected_file] right after does nothing. *)
Theorem load_data_lists (folder : string) (listdir : string -> list string) (g : gui A) :
  folder <> ""%string ->
  Forall (fun f => has_slash f = false) (listdir folder) ->
  filter (ends_with ".txt") (listdir folder) <> [] ->
  exists g',
    load_data folder listdir g = (Ret tt, g') /\
    file_paths (session g') =
      map (path_join folder) (filter (ends_with ".txt") (listdir folder)) /\
    selector_values g' = filter (ends_with ".txt") (listdir folder) /\
    selected_file (session g') = "Select a file"%string /\
    dialogs (session g') = dialogs (session g) ++
      [showinfo "Success" "Files loaded successfully!"] /\
    dataset (session g') = dataset (session g) /\
    load_selected_file (session g') = (Ret tt, session g').
Proof.
  intros Hf Hs Hne.
  destruct (@load_data_listed folder listdir g Hf Hs Hne) as (g' & Hrun & Hg & Hv).
  exists g'. split; [exact Hrun|]. rewrite Hg, Hv. repeat split.
Qed.

(** X8: [load_data] on a chosen folder without text files empties the
    listed paths before it reports "No text files found in the selected
    folder.", while the selector keeps its old entries and selection: an
    entry still selected no longer resolves, and [load_selected_file] ends
    with StopIteration. *)
Theorem load_data_no_text_files (folder : string) (listdir : string -> list string)
    (g : gui A) :
  folder <> ""%string ->
  filter (ends_with ".txt") (listdir folder) = [] ->
  exists g',
    load_data folder listdir g = (Ret tt, g') /\
    file_paths (session g') = [] /\
    selector_values g' = selector_values g /\
    selected_file (session g') = selected_file (session g) /\
    dialogs (session g') = dialogs (session g) ++
      [showerror "Error" "No text files found in the selected folder."] /\
    dataset (session g') = dataset (session g) /\
    (selection_made (session g) ->
     load_selected_file (session g') = (Raise StopIteration, session g')).
Proof.
  intros Hf Hnone. unfold load_data.
  destruct (String.eqb_spec folder "") as [E|_]; [contradiction|].
  rewrite Hnone. simpl. eexists. split; [reflexivity|]. simpl.
  repeat split.
  intros Hsel. unfold load_selected_file, bind at 1, gets at 1.
  unfold selection_made in Hsel. simpl. rewrite Hsel. reflexivity.
Qed.

(** X9: after [load_data] listed a folder, every entry the selector offers
    is a name of that folder ending in ".txt", and selecting it resolves to
    the joined path of that name. *)
Theorem load_data_entries_resolve (folder : string) (listdir : string -> list string)
    (g g' : gui A) (v : string) :
  folder <> ""%string ->
  Forall (fun f => has_slash f = false) (listdir folder) ->
  load_data folder listdir g = (Ret tt, g') ->
  filter (ends_with ".txt") (listdir folder) <> [] ->
  In v (selector_values g') ->
  selected_path (select v (session g')) = Some (path_join folder v) /\
  ends_with ".txt" v = true /\
  In v (listdir folder).
Proof.
  intros Hf Hs Hrun Hne Hin.
  destruct (@load_data_listed folder listdir g Hf Hs Hne) as (g0 & Hrun0 & Hg & Hv).
  rewrite Hrun in Hrun0. injection Hrun0 as <-.
  rewrite Hv in Hin. clear Hv.
  assert (Hs' : Forall (fun f => has_slash f = false)
                  (filter (ends_with ".txt") (listdir folder))).
  { apply Forall_forall. intros f Hin'. rewrite Forall_forall in Hs.
    apply Hs. now apply filter_In in Hin'. }
  split.
  - unfold selected_path. rewrite Hg. simpl. apply (@find_listed folder v _ Hs' Hin).
  - apply filter_In in Hin. tauto.
Qed.

End Folder.

(** ** The further properties on concrete sessions *)

Lemma float_session_loaded evs :
  loaded_at (float_session evs) 0 float_rows.
Proof.
  unfold loaded_at. repeat split; try reflexivity.
  repeat constructor.
Qed.

(** X1 with the entry gone.txt, whose file is missing. *)
Lemma load_unreadable_file_witness :
  load_selected_file gone_session =
  (Ret tt,
   set_dialogs (dialogs gone_session ++
     [showerror "Error" "Failed to load gone.txt: File not found."]) gone_session).
Proof.
  apply (@load_unreadable_file Qc Qc_Num gone_session "/data/gone.txt"); reflexivity.
Defined.

(** X2 with notes.txt, which holds a word. *)
Lemma load_malformed_file_witness :
  load_selected_file (select "notes.txt" (loaded_session "spectrum.txt" [])) =
  (Ret tt,
   set_dialogs (dialogs (loaded_session "spectrum.txt" []) ++
     [showerror "Error" "Failed to load notes.txt: Invalid data format."])
     (select "notes.txt" (loaded_session "spectrum.txt" []))).
Proof.
  apply (@load_malformed_file Qc Qc_Num
           (select "notes.txt" (loaded_session "spectrum.txt" []))
           "/data/notes.txt" [[Some (qz 1); None]; [Some (qz 2); Some (qz 3)]]);
    try reflexivity.
  left. reflexivity.
Defined.

(** X3 with row.txt, a single line of two numbers. *)
Lemma load_too_small_witness :
  load_selected_file (select "row.txt" (loaded_session "spectrum.txt" [])) =
  (Raise IndexError,
   set_heap (heap (loaded_session "spectrum.txt" []) ++ [squeeze [[qz 1; qz 2]]])
     (select "row.txt" (loaded_session "spectrum.txt" []))).
Proof.
  apply (@load_too_small Qc Qc_Num
           (select "row.txt" (loaded_session "spectrum.txt" []))
           "/data/row.txt" (text_of [[qz 1; qz 2]]) [[qz 1; qz 2]]);
    try reflexivity.
  left. simpl. lia.
Defined.

(** X4 with flat.txt, loaded over the spectrum. *)
Lemma load_table_witness :
  exists w',
    load_selected_file (select "flat.txt" (loaded_session "spectrum.txt" [])) = (Ret tt, w') /\
    dataset w' = Some (column 0 flat_rows, column 1 flat_rows).
Proof.
  destruct (@load_table Qc Qc_Num
              (select "flat.txt" (loaded_session "spectrum.txt" []))
              "/data/flat.txt" (text_of flat_rows) flat_rows)
    as (w' & Hrun & Hd & _); try reflexivity; try (simpl; lia).
  exists w'. auto.
Defined.

(** X5 with an entry that is not listed. *)
Lemma load_unlisted_entry_witness :
  load_selected_file (select "other.txt" (loaded_session "spectrum.txt" [])) =
  (Raise StopIteration, select "other.txt" (loaded_session "spectrum.txt" [])).
Proof.
  apply (@load_unlisted_entry Qc Qc_Num); reflexivity.
Defined.

(** X10 on the scenario clicks: two points, then one. *)
Lemma get_user_points_twice_witness :
  exists w1 w2,
    get_user_points 2 (loaded_session "spectrum.txt" scenario_clicks) =
      (Ret [(qz 3, qz 0); (qz 1, qz 0)], w1) /\
    get_user_points 1 w1 = (Ret [(qz 7, qz 7)], w2) /\
    valid_clicks (events w2) = [].
Proof.
  apply (@get_user_points_twice Qc 2 1 (loaded_session "spectrum.txt" scenario_clicks));
    simpl; lia.
Defined.

(** X15 with clicks at x = 2 and x = 1: the samples 1 and 2. *)
Lemma calculate_intensities_neighbours_witness :
  calculate_intensities (loaded_session "spectrum.txt" [click 2 0; click 1 0]) =
  (Ret tt,
   set_results_text
     [{| log_lower := qz 1; log_upper := qz 2; log_area := zero |}]
     (set_dialogs
        (dialogs (after_clicks 2 [] (loaded_session "spectrum.txt" [click 2 0; click 1 0])) ++
         [showinfo_intensity zero])
        (after_clicks 2 [] (loaded_session "spectrum.txt" [click 2 0; click 1 0])))).
Proof.
  apply (@calculate_intensities_neighbours Qc Qc_Num
           (loaded_session "spectrum.txt" [click 2 0; click 1 0])
           (column 0 spectrum_rows) (column 1 spectrum_rows)
           (qz 2, qz 0) (qz 1, qz 0) [] (qz 1) (qz 2) 1); reflexivity.
Defined.

(** X16 on binary64 samples, with the clicks at x = 1 and x = 0. *)
Lemma calculate_intensities_click_order_witness :
  calculate_intensities
    (set_events [float_click 1 0; float_click 0 0]%float (float_session [])) =
  calculate_intensities
    (set_events [float_click 0 0; float_click 1 0]%float (float_session [])).
Proof.
  apply (@calculate_intensities_click_order PrimFloat.float float_Num
           (float_session [])
           ({| base := 0; col := 0 |}, {| base := 0; col := 1 |})
           1%float 0%float 0%float 0%float []).
  - reflexivity.
  - right. reflexivity.
Defined.

(** X18 on binary64 samples, with the clicks (1, 2) and (0, 1). *)
Lemma remove_background_click_order_witness :
  remove_background
    (set_events [float_click 1 2; float_click 0 1]%float (float_session [])) =
  remove_background
    (set_events [float_click 0 1; float_click 1 2]%float (float_session [])).
Proof.
  apply (@remove_background_click_order PrimFloat.float float_Num
           (float_session []) 0 float_rows
           1%float 2%float 0%float 1%float []).
  - apply float_session_loaded.
  - reflexivity.
Defined.

(** X19 with the clicks (0, 1) and (4, 5). *)
Lemma remove_background_redraws_witness :
  exists w',
    remove_background (loaded_session "spectrum.txt" [click 0 1; click 4 5]) = (Ret tt, w') /\
    drawn w' = dataset w'.
Proof.
  destruct (@remove_background_redraws Qc Qc_Num
              (loaded_session "spectrum.txt" [click 0 1; click 4 5])
              0 spectrum_rows (qz 0, qz 1) (qz 4, qz 5) [])
    as (w' & Hrun & Hd & _).
  - apply spectrum_session_loaded.
  - reflexivity.
  - exists w'. auto.
Defined.

(** X20 with the clicks on the samples (1, 1) and (3, 1): sample 3 becomes 0. *)
Lemma remove_background_zeroes_anchors_witness :
  exists w' y',
    remove_background (loaded_session "spectrum.txt" [click 1 1; click 3 1]) = (Ret tt, w') /\
    dataset w' = Some (column 0 spectrum_rows, y') /\
    nth 3 y' zero = zero.
Proof.
  apply (@remove_background_zeroes_anchors
           (loaded_session "spectrum.txt" [click 1 1; click 3 1])
           0 spectrum_rows (qz 1, qz 1) (qz 3, qz 1) [] 3).
  - apply spectrum_session_loaded.
  - reflexivity.
  - intros E. apply (f_equal this) in E. vm_compute in E. discriminate.
  - simpl. lia.
  - right. reflexivity.
Defined.

(** X21 with the clicks (0, 1) and (4, 1). *)
Lemma remove_background_level_witness :
  exists w',
    remove_background (loaded_session "spectrum.txt" [click 0 1; click 4 1]) = (Ret tt, w') /\
    dataset w' =
      Some (column 0 spectrum_rows,
            map (fun v => sub v (qz 1)) (column 1 spectrum_rows)).
Proof.
  apply (@remove_background_level
           (loaded_session "spectrum.txt" [click 0 1; click 4 1])
           0 spectrum_rows (qz 0, qz 1) (qz 4, qz 1) [] (qz 1)).
  - apply spectrum_session_loaded.
  - reflexivity.
  - intros E. apply (f_equal this) in E. vm_compute in E. discriminate.
  - reflexivity.
  - reflexivity.
Defined.

(** X17 with the bound 2 on x = 0,1,2,3,4. *)
Lemma np_argmin_on_sample_witness :
  (2 < length (column 0 spectrum_rows))%nat /\
  nth 2 (column 0 spectrum_rows) zero = qz 2 /\
  forall j, (j < 2)%nat -> nth j (column 0 spectrum_rows) zero <> qz 2.
Proof.
  apply (@np_argmin_on_sample (column 0 spectrum_rows) (qz 2) 2).
  - simpl. auto.
  - reflexivity.
Defined.

(** X12 on the loaded spectrum. *)
Lemma plot_data_draws_witness :
  plot_data (loaded_session "spectrum.txt" []) =
  (Ret tt,
   set_drawn (Some (column 0 spectrum_rows, column 1 spectrum_rows))
     (loaded_session "spectrum.txt" [])).
Proof.
  apply (@plot_data_draws Qc Qc_Num (loaded_session "spectrum.txt" [])
           (column 0 spectrum_rows) (column 1 spectrum_rows)).
  reflexivity.
Defined.

(** X13 on the session that [__init__] builds, with two clicks pending. *)
Lemma no_data_guard_witness :
  remove_background (session (init demo_files [click 0 1; click 4 5])) =
  (Ret tt,
   set_dialogs [showerror "Error" "No data loaded. Please load data first."]
     (session (init demo_files [click 0 1; click 4 5]))).
Proof.
  exact (proj1 (proj2 (@no_data_guard Qc Qc_Num
           (session (init demo_files [click 0 1; click 4 5])) eq_refl))).
Defined.

(** X7 on the folder /data. *)
Lemma load_data_lists_witness :
  exists g',
    load_data "/data" demo_listdir (init demo_files []) = (Ret tt, g') /\
    file_paths (session g') = ["/data/spectrum.txt"; "/data/flat.txt"]%string /\
    selector_values g' = ["spectrum.txt"; "flat.txt"]%string /\
    selected_file (session g') = "Select a file"%string.
Proof.
  destruct (@load_data_lists Qc Qc_Num "/data" demo_listdir (init demo_files []))
    as (g' & Hrun & Hp & Hv & Hs & _).
  - discriminate.
  - repeat constructor.
  - discriminate.
  - exists g'. auto.
Defined.

(** X8 on the folder /plots, with spectrum.txt still selected. *)
Lemma load_data_no_text_files_witness :
  exists g',
    load_data "/plots" demo_listdir
      {| session := select "spectrum.txt" (session spectrum_gui);
         selector_values := selector_values spectrum_gui |} = (Ret tt, g') /\
    selector_values g' = ["spectrum.txt"; "flat.txt"]%string /\
    file_paths (session g') = [] /\
    load_selected_file (session g') = (Raise StopIteration, session g').
Proof.
  destruct (@load_data_no_text_files Qc Qc_Num "/plots" demo_listdir
              {| session := select "spectrum.txt" (session spectrum_gui);
                 selector_values := selector_values spectrum_gui |})
    as (g' & Hrun & Hp & Hv & _ & _ & _ & Hstale).
  - discriminate.
  - reflexivity.
  - exists g'. repeat split; try assumption. apply Hstale. reflexivity.
Defined.

(** X9 with the entry flat.txt of /data. *)
Lemma load_data_entries_resolve_witness :
  selected_path (select "flat.txt"
    (session (snd (load_data "/data" demo_listdir (init demo_files []))))) =
    Some (path_join "/data" "flat.txt") /\
  ends_with ".txt" "flat.txt" = true /\
  In "flat.txt"%string (demo_listdir "/data").
Proof.
  apply (@load_data_entries_resolve Qc "/data" demo_listdir (init demo_files [])
           (snd (load_data "/data" demo_listdir (init demo_files []))) "flat.txt").
  - discriminate.
  - repeat constructor.
  - reflexivity.
  - discriminate.
  - simpl. auto.
Defined.
